(** * Point-in-polygon classification of the Chicago community map

    A shallow embedding of [src/services/geospatialService.ts] (the
    [GeospatialService] class) and of the coordinate validator of
    [src/services/chicagoParkService.ts], with the properties of the
    spatial-assignment engine stated and proved over it.

    JavaScript numbers are IEEE-754 binary64 values; they are modelled by
    [spec_float] with the operations of [SpecFloat] at precision 53 and
    maximal exponent 1024, so that rounding, NaN and the infinities behave
    as they do in the program. *)

From Stdlib Require Import ZArith Bool List String Ascii Lia.
From Stdlib Require Import Floats.SpecFloat.
From stdpp Require Import base list.

Import ListNotations.
Local Open Scope Z_scope.

(** ** JavaScript numbers *)

Module Num.

Definition number : Type := spec_float.

Definition prec : Z := 53.
Definition emax : Z := 1024.

Definition NaN : number := S754_nan.

(** The Number value of a mathematical integer (round to nearest even). *)
Definition of_Z (z : Z) : number := binary_normalize prec emax z 0 false.

Definition add (a b : number) : number := SFadd prec emax a b.
Definition sub (a b : number) : number := SFsub prec emax a b.
Definition mul (a b : number) : number := SFmul prec emax a b.
Definition div (a b : number) : number := SFdiv prec emax a b.
Definition neg (a : number) : number := SFopp a.

(** [a < b], [a > b], [a <= b], [a >= b], [a === b] on numbers. *)
Definition lt (a b : number) : bool := SFltb a b.
Definition gt (a b : number) : bool := SFltb b a.
Definition le (a b : number) : bool := SFleb a b.
Definition ge (a b : number) : bool := SFleb b a.
Definition strict_eq (a b : number) : bool := SFeqb a b.

Definition isNaN (a : number) : bool :=
  match a with S754_nan => true | _ => false end.

(** ToBoolean on a number: NaN, +0 and -0 are falsy. *)
Definition truthy (a : number) : bool :=
  match a with
  | S754_nan | S754_zero _ => false
  | _ => true
  end.

(** A decimal literal [m / 10^k] of the source text denotes the double
    nearest to it; the correctly rounded quotient of two exactly
    representable integers is that double. *)
Definition decimal (m : Z) (k : nat) : number :=
  div (of_Z m) (of_Z (10 ^ Z.of_nat k)).

End Num.

Abbreviation number := Num.number.

(** ** Geometry: the data of the GeoJSON feed *)

(** A position [[x, y]] = [[longitude, latitude]]; the program reads the
    first two components of a position and no other. *)
Definition Position : Type := (number * number)%type.
Abbreviation Ring := (list Position).

Section PointInRing.

Variable point : Position.

(** The condition of the loop body of [pointInRing] for the edge from
    [ring[i]] to [ring[j]]; [&&] evaluates the quotient only when the
    first conjunct holds. *)
Definition crosses (vi vj : Position) : bool :=
  let '(x, y) := point in
  let '(xi, yi) := vi in
  let '(xj, yj) := vj in
  negb (eqb (Num.gt yi y) (Num.gt yj y))
  && Num.lt x (Num.add (Num.div (Num.mul (Num.sub xj xi) (Num.sub y yi))
                                 (Num.sub yj yi)) xi).

(** [for (let i = 0, j = n - 1; i < n; j = i++) { ... }]: [steps]
    bounds the iterations still to run (it starts at [n], and [i < n]
    fails after [n] of them). *)
Fixpoint pointInRing_loop (ring : Ring) (steps i j : nat) (inside : bool)
  : bool :=
  match steps with
  | O => inside
  | S steps' =>
      if (i <? length ring)%nat then
        match ring !! i, ring !! j with
        | Some vi, Some vj =>
            pointInRing_loop ring steps' (S i) i
              (if crosses vi vj then negb inside else inside)
        | _, _ => inside
        end
      else inside
  end.

Definition pointInRing (ring : Ring) : bool :=
  let n := length ring in
  pointInRing_loop ring n 0%nat (n - 1)%nat false.

End PointInRing.


(** ** Exceptions *)

Inductive Exn :=
| TypeError
| NetworkError
| SyntaxError
| Error (message : string).

Inductive Result (A : Type) :=
| Ok (value : A)
| Throw (error : Exn).
Arguments Ok {A} value.
Arguments Throw {A} error.

Definition is_throw {A} (r : Result A) : bool :=
  match r with Throw _ => true | Ok _ => false end.

(** [try { body } catch (error) { return handler }] for a pure body. *)
Definition try_or {A} (body : Result A) (handler : A) : A :=
  match body with Ok v => v | Throw _ => handler end.

(** ** Containment in polygons and geometries *)

(** A GeoJSON geometry object; [coordinates] is [None] when the property
    is absent. Any other [type] carries its name only. *)
Inductive Geometry :=
| Polygon (coordinates : option (list Ring))
| MultiPolygon (coordinates : option (list (list Ring)))
| OtherGeometry (type : string).

Section Containment.

Variable point : Position.

(** [for (let i = 1; i < coordinates.length; i++)
      if (pointInRing(point, coordinates[i])) return false;
    return true] *)
Fixpoint holes_loop (coordinates : list Ring) (steps i : nat) : bool :=
  match steps with
  | O => true
  | S steps' =>
      if (i <? length coordinates)%nat then
        match coordinates !! i with
        | Some hole =>
            if pointInRing point hole then false
            else holes_loop coordinates steps' (S i)
        | None => true
        end
      else true
  end.

(** [coordinates[0]] is [undefined] for an empty array, and reading
    [ring.length] of [undefined] inside [pointInRing] throws. *)
Definition isPointInPolygon (coordinates : list Ring) : Result bool :=
  match coordinates !! 0%nat with
  | None => Throw TypeError
  | Some exteriorRing =>
      if negb (pointInRing point exteriorRing) then Ok false
      else Ok (holes_loop coordinates (length coordinates) 1)
  end.

(** [Array.prototype.some] with a callback that may throw. *)
Fixpoint some {A} (callback : A -> Result bool) (l : list A)
  : Result bool :=
  match l with
  | [] => Ok false
  | x :: rest =>
      match callback x with
      | Throw e => Throw e
      | Ok true => Ok true
      | Ok false => some callback rest
      end
  end.

Definition isPointInGeometry (geometry : option Geometry) : bool :=
  match geometry with
  | None => false
  | Some (Polygon None) | Some (MultiPolygon None) => false
  | Some (Polygon (Some coordinates)) =>
      try_or (isPointInPolygon coordinates) false
  | Some (MultiPolygon (Some coordinates)) =>
      try_or (some isPointInPolygon coordinates) false
  | Some (OtherGeometry _) => false
  end.

End Containment.

(** ** [parseInt] with the default radix

    Strings are sequences of 8-bit code units; the white space of that
    range is TAB, LF, VT, FF, CR, SP and NBSP. The integer read is
    rounded to the nearest number (an engine may approximate a decimal
    integer of more than 20 significant digits differently). *)

Module ParseInt.

Definition code (c : ascii) : Z := Z.of_N (N_of_ascii c).

Definition is_white_space (c : ascii) : bool :=
  let n := code c in
  ((9 <=? n) && (n <=? 13)) || (n =? 32) || (n =? 160).

Fixpoint trim_start (s : string) : string :=
  match s with
  | String c rest => if is_white_space c then trim_start rest else s
  | EmptyString => s
  end.

Definition digit_value (c : ascii) : option Z :=
  let n := code c in
  if (48 <=? n) && (n <=? 57) then Some (n - 48)
  else if (97 <=? n) && (n <=? 122) then Some (n - 97 + 10)
  else if (65 <=? n) && (n <=? 90) then Some (n - 65 + 10)
  else None.

Definition radix_digit (radix : Z) (c : ascii) : option Z :=
  match digit_value c with
  | Some d => if d <? radix then Some d else None
  | None => None
  end.

(** The value of the longest prefix of radix digits, [None] when that
    prefix is empty. *)
Fixpoint digits (radix : Z) (s : string) (acc : option Z) : option Z :=
  match s with
  | EmptyString => acc
  | String c rest =>
      match radix_digit radix c with
      | Some d =>
          digits radix rest
            (Some (match acc with Some a => a * radix + d | None => d end))
      | None => acc
      end
  end.

Definition strip_sign (s : string) : bool * string :=
  match s with
  | String "-" rest => (true, rest)
  | String "+" rest => (false, rest)
  | _ => (false, s)
  end.

Definition strip_prefix (s : string) : Z * string :=
  match s with
  | String "0" (String "x" rest) | String "0" (String "X" rest) =>
      (16, rest)
  | _ => (10, s)
  end.

Definition parseInt (inputString : string) : number :=
  let '(negative, s) := strip_sign (trim_start inputString) in
  let '(radix, s) := strip_prefix s in
  match digits radix s None with
  | None => Num.NaN
  | Some mathInt =>
      if negative then Num.neg (Num.of_Z mathInt) else Num.of_Z mathInt
  end.

(** ToString of an optional string property: a missing one is
    [undefined]. *)
Definition to_string (v : option string) : string :=
  match v with Some s => s | None => "undefined" end.

End ParseInt.

(** [value || null] on a number. *)
Definition or_null (value : number) : option number :=
  if Num.truthy value then Some value else None.

(** ** The service: state, environment and effects *)

(** A record of the feed, and of the cache. The three properties the
    loader inspects may be absent. *)
Record CommunityArea := {
  the_geom : option Geometry;
  area_numbe : option string;
  community : option string
}.

(** What [fetch('/geojson/chicago_community_areas.json')] and
    [response.json()] produce. A [null] element of the array is [None]. *)
Inductive JsonData :=
| NotAnArray
| JsonArray (elements : list (option CommunityArea)).

Inductive Body :=
| Malformed
| Parsed (data : JsonData).

Inductive FetchOutcome :=
| Rejected
| Responded (ok : bool) (statusText : string) (body : Body).

(** The world around one call: the value of [Date.now()] when staleness
    is checked, the outcome of the fetch, and the value of [Date.now()]
    once the records are stored. Times are whole milliseconds, which
    numbers hold and subtract exactly, so they are integers here. *)
Record World := {
  now_on_entry : Z;
  feed : FetchOutcome;
  now_after_load : Z
}.

(** The mutable fields of [GeospatialService]. *)
Record Service := {
  communityAreasCache : list CommunityArea;
  lastCommunityLoadTime : Z
}.

Definition new_GeospatialService : Service :=
  {| communityAreasCache := []; lastCommunityLoadTime := 0 |}.

Definition CACHE_DURATION : Z := 60 * 60 * 1000.

(** Computations that read the world, update the service and may throw. *)
Definition M (A : Type) : Type := World -> Service -> Result A * Service.

Definition ret {A} (a : A) : M A := fun _ st => (Ok a, st).

Definition bind {A B} (m : M A) (k : A -> M B) : M B :=
  fun w st =>
    match m w st with
    | (Ok a, st') => k a w st'
    | (Throw e, st') => (Throw e, st')
    end.

Declare Scope service_scope.
Delimit Scope service_scope with service.
Notation "x <- m ;; k" := (bind m (fun x => k))
  (at level 100, m at next level, right associativity) : service_scope.
Notation "m ;; k" := (bind m (fun _ => k))
  (at level 100, right associativity) : service_scope.
Local Open Scope service_scope.

Definition throw {A} (e : Exn) : M A := fun _ st => (Throw e, st).

Definition try_catch {A} (body : M A) (handler : Exn -> M A) : M A :=
  fun w st =>
    match body w st with
    | (Ok a, st') => (Ok a, st')
    | (Throw e, st') => handler e w st'
    end.

Definition get_cache : M (list CommunityArea) :=
  fun _ st => (Ok (communityAreasCache st), st).

Definition set_cache (areas : list CommunityArea) : M unit :=
  fun _ st =>
    (Ok tt, {| communityAreasCache := areas;
               lastCommunityLoadTime := lastCommunityLoadTime st |}).

Definition get_load_time : M Z :=
  fun _ st => (Ok (lastCommunityLoadTime st), st).

Definition set_load_time (t : Z) : M unit :=
  fun _ st =>
    (Ok tt, {| communityAreasCache := communityAreasCache st;
               lastCommunityLoadTime := t |}).

Definition Date_now_on_entry : M Z := fun w st => (Ok (now_on_entry w), st).
Definition Date_now_after_load : M Z :=
  fun w st => (Ok (now_after_load w), st).

Definition fetch : M (bool * string * Body) :=
  fun w st =>
    match feed w with
    | Rejected => (Throw NetworkError, st)
    | Responded ok statusText body => (Ok (ok, statusText, body), st)
    end.

Definition response_json (body : Body) : M JsonData :=
  match body with
  | Malformed => throw SyntaxError
  | Parsed data => ret data
  end.

(** ** Loading the cache *)

(** ToBoolean of an optional string property. *)
Definition truthy_string (v : option string) : bool :=
  match v with
  | Some (String _ _) => true
  | Some EmptyString | None => false
  end.

(** ToBoolean of an optional object property. *)
Definition truthy_object {A} (v : option A) : bool :=
  match v with Some _ => true | None => false end.

(** [area.the_geom && area.area_numbe && area.community], as a condition. *)
Definition has_required_fields (area : CommunityArea) : bool :=
  truthy_object (the_geom area) && truthy_string (area_numbe area)
  && truthy_string (community area).

(** [data.filter(area => ...)]: not a function unless [data] is an array;
    reading a property of a [null] element throws; the result is a new
    array. *)
Fixpoint filter_elements (elements : list (option CommunityArea))
  : Result (list CommunityArea) :=
  match elements with
  | [] => Ok []
  | None :: _ => Throw TypeError
  | Some area :: rest =>
      match filter_elements rest with
      | Throw e => Throw e
      | Ok kept =>
          Ok (if has_required_fields area then area :: kept else kept)
      end
  end.

Definition data_filter (data : JsonData) : M (list CommunityArea) :=
  match data with
  | NotAnArray => throw TypeError
  | JsonArray elements =>
      match filter_elements elements with
      | Ok kept => ret kept
      | Throw e => throw e
      end
  end.

(** The part of the [try] block of [loadCommunityAreas] before the first
    assignment. *)
Definition fetch_and_filter : M (list CommunityArea) :=
  response <- fetch ;;
  let '(ok, statusText, body) := response in
  (if negb ok
   then throw (Error ("Failed to load community areas: " ++ statusText))
   else ret tt) ;;
  data <- response_json body ;;
  data_filter data.

Definition loadCommunityAreas : M unit :=
  try_catch
    (areas <- fetch_and_filter ;;
     set_cache areas ;;
     t <- Date_now_after_load ;;
     set_load_time t)
    (fun error => throw error).

Definition shouldRefreshCommunityCache : M bool :=
  now <- Date_now_on_entry ;;
  last <- get_load_time ;;
  cache <- get_cache ;;
  ret ((now - last >? CACHE_DURATION) || (length cache =? 0)%nat).

Definition ensureCommunityAreasLoaded : M unit :=
  stale <- shouldRefreshCommunityCache ;;
  if stale then loadCommunityAreas else ret tt.

(** ** The classifier *)

(** [for (const area of this.communityAreasCache)
      if (this.isPointInGeometry(point, area.the_geom))
        return parseInt(area.area_numbe) || null;
    return null] *)
Fixpoint first_containing (point : Position) (areas : list CommunityArea)
  : option number :=
  match areas with
  | [] => None
  | area :: rest =>
      if isPointInGeometry point (the_geom area)
      then or_null (ParseInt.parseInt (ParseInt.to_string (area_numbe area)))
      else first_containing point rest
  end.

Definition getCommunityAreaForCoordinates (lat lng : number)
  : M (option number) :=
  ensureCommunityAreasLoaded ;;
  let point : Position := (lng, lat) in
  cache <- get_cache ;;
  ret (first_containing point cache).

(** ** Parks *)

Inductive ParkSize := small | medium | large.

Record Park := {
  id : string;
  name : string;
  address : string;
  coordinates : number * number;
  communityArea : number;
  amenities : list string;
  description : string;
  size : ParkSize
}.

(** [{ ...park, communityArea: actualCommunityArea }] *)
Definition with_communityArea (park : Park) (actual : number) : Park :=
  {| id := id park; name := name park; address := address park;
     coordinates := coordinates park; communityArea := actual;
     amenities := amenities park; description := description park;
     size := size park |}.

Definition correctParkCommunityArea (park : Park) : M Park :=
  let '(lat, lng) := coordinates park in
  actualCommunityArea <- getCommunityAreaForCoordinates lat lng ;;
  match actualCommunityArea with
  | Some actual =>
      if Num.truthy actual
         && negb (Num.strict_eq actual (communityArea park))
      then ret (with_communityArea park actual)
      else ret park
  | None => ret park
  end.

(** ** Coordinate validation *)

(** [GeospatialService.isValidChicagoCoordinates] *)
Definition isValidChicagoCoordinates (lat lng : number) : bool :=
  Num.ge lat (Num.decimal 416 1) && Num.le lat (Num.decimal 421 1)
  && Num.ge lng (Num.neg (Num.decimal 883 1))
  && Num.le lng (Num.neg (Num.decimal 875 1)).

(** [ChicagoParkService.isValidCoordinates]; the comparisons with [null]
    and [undefined] hold of every number. *)
Definition isValidCoordinates (coordinates : number * number) : bool :=
  let '(lat, lng) := coordinates in
  negb (Num.isNaN lat) && negb (Num.isNaN lng)
  && Num.ge lat (Num.neg (Num.of_Z 90)) && Num.le lat (Num.of_Z 90)
  && Num.ge lng (Num.neg (Num.of_Z 180)) && Num.le lng (Num.of_Z 180)
  && isValidChicagoCoordinates lat lng.

(** ** Reachable states of the service *)

(** One call of an operation that touches the cache. *)
Inductive step (st : Service) : Service -> Prop :=
| step_classify w lat lng :
    step st (snd (getCommunityAreaForCoordinates lat lng w st))
| step_correct w park :
    step st (snd (correctParkCommunityArea park w st))
| step_ensure w :
    step st (snd (ensureCommunityAreasLoaded w st))
| step_load w :
    step st (snd (loadCommunityAreas w st)).

Inductive reachable : Service -> Prop :=
| reachable_new : reachable new_GeospatialService
| reachable_step st st' : reachable st -> step st st' -> reachable st'.

(** ** Sample data *)

Definition pos (x y : Z) : Position := (Num.of_Z x, Num.of_Z y).

(** The square of the first scenario. *)
Definition square : Ring := [pos 0 0; pos 0 10; pos 10 10; pos 10 0].

Definition small_square : Ring := [pos 4 4; pos 4 6; pos 6 6; pos 6 4].

Definition donut : list Ring := [square; small_square].

(** A two-vertex ring and a point on its supporting line. *)
Definition segment : Ring := [pos 0 0; pos 1 3].
Definition third : number := Num.div (Num.of_Z 1) (Num.of_Z 3).

Definition five : number := Num.of_Z 5.

Definition area (geometry : Geometry) (number name : string)
  : CommunityArea :=
  {| the_geom := Some geometry; area_numbe := Some number;
     community := Some name |}.

Definition area_one : CommunityArea :=
  area (Polygon (Some [square])) "1" "ROGERS PARK".

Definition area_zero : CommunityArea :=
  area (Polygon (Some [square])) "0" "UNNUMBERED".

Definition area_without_number : CommunityArea :=
  {| the_geom := Some (Polygon (Some [square])); area_numbe := None;
     community := Some "NAMELESS"%string |}.

Definition loaded (areas : list CommunityArea) (at_time : Z) : Service :=
  {| communityAreasCache := areas; lastCommunityLoadTime := at_time |}.

Definition offline (now : Z) : World :=
  {| now_on_entry := now; feed := Rejected; now_after_load := now |}.

Definition online (now : Z) (elements : list (option CommunityArea))
  : World :=
  {| now_on_entry := now;
     feed := Responded true "OK"%string (Parsed (JsonArray elements));
     now_after_load := now + 5 |}.

Definition a_park (assigned : number) : Park :=
  {| id := "chicago-park-1"%string; name := "Touhy Park"%string;
     address := "7348 N Paulina St"%string;
     coordinates := (Num.of_Z 5, Num.of_Z 5);
     communityArea := assigned; amenities := ["Playground"%string];
     description := "1 acre park in Ward 49"%string; size := small |}.

(** ** Reference definitions for the statements *)

(** The parity of the edges crossed along [prev, v1, v2, ...]: the edge
    from each vertex to the one before it. *)
Fixpoint edge_parity (point : Position) (prev : Position) (l : Ring)
  : bool :=
  match l with
  | [] => false
  | v :: l' => xorb (crosses point v prev) (edge_parity point v l')
  end.

Definition outside (point : Position) (hole : Ring) : bool :=
  negb (pointInRing point hole).

(** The rule of the polygon test in words: inside the exterior (first)
    ring and inside none of the hole (subsequent) rings. *)
Definition inside_exterior_outside_holes (point : Position)
  (polygon : list Ring) : Prop :=
  exists exterior holes,
    polygon = exterior :: holes
    /\ pointInRing point exterior = true
    /\ Forall (fun hole => pointInRing point hole = false) holes.

(** Whether a call made in world [w] finds the cache due for a refresh. *)
Definition refresh_due (w : World) (st : Service) : Prop :=
  fst (shouldRefreshCommunityCache w st) = Ok true.

Definition contains_point (point : Position) (area : CommunityArea)
  : bool :=
  isPointInGeometry point (the_geom area).

(** What the classifier returns for a record it has matched. *)
Definition identifier_or_null (area : CommunityArea) : option number :=
  or_null (ParseInt.parseInt (ParseInt.to_string (area_numbe area))).

(** A record with the three properties the loader asks for. *)
Definition complete (area : CommunityArea) : Prop :=
  is_Some (the_geom area) /\ is_Some (area_numbe area)
  /\ is_Some (community area).

(** The four bounds of the regional box, as the literals of
    [isValidChicagoCoordinates] denote them. *)
Definition south : number := Num.decimal 416 1.
Definition north : number := Num.decimal 421 1.
Definition west : number := Num.neg (Num.decimal 883 1).
Definition east : number := Num.neg (Num.decimal 875 1).

(** [lo <= x <= hi], both comparisons inclusive. *)
Definition within (lo x hi : number) : Prop :=
  Num.ge x lo = true /\ Num.le x hi = true.

(** ** The other operations of [GeospatialService] *)

(** [parseInt(area.area_numbe)] *)
Definition parsed_number (area : CommunityArea) : number :=
  ParseInt.parseInt (ParseInt.to_string (area_numbe area)).

(** [this.communityAreasCache.find(area =>
      parseInt(area.area_numbe) === areaNumber) || null] after the
    freshness step; a record, being an object, is truthy. *)
Definition getCommunityAreaInfo (areaNumber : number)
  : M (option CommunityArea) :=
  ensureCommunityAreasLoaded ;;
  cache <- get_cache ;;
  ret (List.find
         (fun area => Num.strict_eq (parsed_number area) areaNumber) cache).

(** [actualCommunityArea !== park.communityArea] for a [number | null] on
    the left: null differs from every number. *)
Definition strict_ne_or_null (actual : option number) (stored : number)
  : bool :=
  match actual with
  | Some n => negb (Num.strict_eq n stored)
  | None => true
  end.

Definition validateParkLocation (park : Park) : M bool :=
  let '(lat, lng) := coordinates park in
  actualCommunityArea <- getCommunityAreaForCoordinates lat lng ;;
  if strict_ne_or_null actualCommunityArea (communityArea park)
  then ret false
  else ret true.

(** What [geocodeAddress] resolves to, when not null. *)
Module Geocoded.
Record t := {
  latitude : number;
  longitude : number;
  address : option string
}.
End Geocoded.

(** The interface [GeocodeResult]. *)
Module GeocodeResult.
Record t := {
  latitude : number;
  longitude : number;
  communityArea : option number;
  address : string
}.
End GeocodeResult.

(** [coordinates.address || address] *)
Definition address_or (found : option string) (given : string) : string :=
  match found with
  | Some (String c rest) => String c rest
  | Some EmptyString | None => given
  end.

Section Address.

(** [geocodeAddress] matches a regular expression and queries a geocoding
    service; it is left open here, so that what is proved of
    [getCommunityAreaForAddress] holds whatever it does. *)
Variable geocodeAddress : string -> M (option Geocoded.t).

Definition getCommunityAreaForAddress (address : string)
  : M (option GeocodeResult.t) :=
  try_catch
    (coordinates <- geocodeAddress address ;;
     match coordinates with
     | None => ret None
     | Some coordinates =>
         communityArea <-
           getCommunityAreaForCoordinates (Geocoded.latitude coordinates)
             (Geocoded.longitude coordinates) ;;
         ret (Some
                {| GeocodeResult.latitude := Geocoded.latitude coordinates;
                   GeocodeResult.longitude := Geocoded.longitude coordinates;
                   GeocodeResult.communityArea := communityArea;
                   GeocodeResult.address :=
                     address_or (Geocoded.address coordinates) address |})
     end)
    (fun _ => ret None).

End Address.

(** ** Helpers of [ChicagoParkService] *)

(** [geometry.coordinates[0]?.[0]] of a MultiPolygon, [coordinates[0]] of
    a Polygon, after [if (!geometry?.coordinates?.length) return null]. *)
Definition first_ring (geometry : option Geometry) : option Ring :=
  match geometry with
  | Some (MultiPolygon (Some (polygon :: _))) => polygon !! 0%nat
  | Some (Polygon (Some (ring :: _))) => Some ring
  | _ => None
  end.

(** [coords.reduce((sum, point) => sum + point[k], 0)] *)
Definition reduce_sum (component : Position -> number) (coords : Ring)
  : number :=
  fold_left (fun sum point => Num.add sum (component point)) coords
    (Num.of_Z 0).

Definition extractCoordinates (geometry : option Geometry)
  : option (number * number) :=
  match first_ring geometry with
  | None | Some [] => None
  | Some coords =>
      let n := Num.of_Z (Z.of_nat (length coords)) in
      let avgLng := Num.div (reduce_sum fst coords) n in
      let avgLat := Num.div (reduce_sum snd coords) n in
      Some (avgLat, avgLng)
  end.

Definition determineParkSize (acres : number) : ParkSize :=
  if Num.le acres (Num.of_Z 2) then small
  else if Num.le acres (Num.of_Z 10) then medium
  else large.

(** The amenity columns of [ChicagoParkAPIResponse]. *)
Module ApiPark.
Record t := {
  basketball : option string;
  playground : option string;
  tennis_cou : option string;
  baseball_f : option string;
  soccer_fie : option string;
  football_f : option string;
  swimming_p : option string;
  beach : option string;
  dog_friend : option string;
  golf_cours : option string;
  nature_bir : option string;
  wheelchr_a : option string
}.
End ApiPark.

(** [column === 'Yes'] *)
Definition is_Yes (column : option string) : bool :=
  match column with
  | Some s => String.eqb s "Yes"
  | None => false
  end.

(** [if (condition) amenities.push(amenity)] *)
Definition push_if (condition : bool) (amenity : string)
  (amenities : list string) : list string :=
  if condition then amenities ++ [amenity] else amenities.

Definition extractAmenities (apiPark : ApiPark.t) : list string :=
  let amenities := [] in
  let amenities :=
    push_if (is_Yes (ApiPark.basketball apiPark)) "Basketball" amenities in
  let amenities :=
    push_if (is_Yes (ApiPark.playground apiPark)) "Playground" amenities in
  let amenities :=
    push_if (is_Yes (ApiPark.tennis_cou apiPark)) "Tennis" amenities in
  let amenities :=
    push_if (is_Yes (ApiPark.baseball_f apiPark)) "Baseball" amenities in
  let amenities :=
    push_if (is_Yes (ApiPark.soccer_fie apiPark)) "Soccer" amenities in
  let amenities :=
    push_if (is_Yes (ApiPark.football_f apiPark)) "Football" amenities in
  let amenities :=
    push_if (is_Yes (ApiPark.swimming_p apiPark)) "Swimming Pool"
      amenities in
  let amenities :=
    push_if (is_Yes (ApiPark.beach apiPark)) "Beach" amenities in
  let amenities :=
    push_if (is_Yes (ApiPark.dog_friend apiPark)) "Dog Friendly"
      amenities in
  let amenities :=
    push_if (is_Yes (ApiPark.golf_cours apiPark)) "Golf" amenities in
  let amenities :=
    push_if (is_Yes (ApiPark.nature_bir apiPark)) "Nature Area"
      amenities in
  let amenities :=
    push_if (is_Yes (ApiPark.wheelchr_a apiPark)) "Wheelchair Accessible"
      amenities in
  amenities.

(** The loop of [validateAndCorrectParkLocations] over the parks that
    [getAllParks] returned:
    [for (const park of allParks) {
       const correctedPark = await geospatialService
         .correctParkCommunityArea(park);
       correctedParks.push(correctedPark); }].
    Each call meets a world of its own, [world_of k] for the call number
    [k]. *)
Fixpoint correct_parks_loop (world_of : nat -> World) (k : nat)
  (allParks correctedParks : list Park) (st : Service)
  : Result (list Park) * Service :=
  match allParks with
  | [] => (Ok correctedParks, st)
  | park :: rest =>
      match correctParkCommunityArea park (world_of k) st with
      | (Ok correctedPark, st') =>
          correct_parks_loop world_of (S k) rest
            (correctedParks ++ [correctedPark]) st'
      | (Throw e, st') => (Throw e, st')
      end
  end.

(** ** Reference definitions for the further statements *)

(** The amenity columns with the names they are listed under, in the
    order of the source. *)
Definition amenity_columns (apiPark : ApiPark.t)
  : list (option string * string) :=
  [(ApiPark.basketball apiPark, "Basketball");
   (ApiPark.playground apiPark, "Playground");
   (ApiPark.tennis_cou apiPark, "Tennis");
   (ApiPark.baseball_f apiPark, "Baseball");
   (ApiPark.soccer_fie apiPark, "Soccer");
   (ApiPark.football_f apiPark, "Football");
   (ApiPark.swimming_p apiPark, "Swimming Pool");
   (ApiPark.beach apiPark, "Beach");
   (ApiPark.dog_friend apiPark, "Dog Friendly");
   (ApiPark.golf_cours apiPark, "Golf");
   (ApiPark.nature_bir apiPark, "Nature Area");
   (ApiPark.wheelchr_a apiPark, "Wheelchair Accessible")]%string.

Definition size_rank (s : ParkSize) : nat :=
  match s with small => 0 | medium => 1 | large => 2 end.

(** Two parks that differ in their community area at most. *)
Definition same_but_area (park park' : Park) : Prop :=
  id park' = id park /\ name park' = name park
  /\ address park' = address park /\ coordinates park' = coordinates park
  /\ amenities park' = amenities park
  /\ description park' = description park /\ size park' = size park.

Definition a_feed (now : Z) (records : list CommunityArea) : World :=
  online now (map Some records).

Definition some_columns : ApiPark.t :=
  {| ApiPark.basketball := Some "Yes"%string; ApiPark.playground := None;
     ApiPark.tennis_cou := Some "Yes"%string;
     ApiPark.baseball_f := Some "No"%string;
     ApiPark.soccer_fie := None; ApiPark.football_f := None;
     ApiPark.swimming_p := None; ApiPark.beach := Some "yes"%string;
     ApiPark.dog_friend := None; ApiPark.golf_cours := None;
     ApiPark.nature_bir := None;
     ApiPark.wheelchr_a := Some "Yes"%string |}.

(** * Properties *)

(** ** Comparisons of numbers *)

(** Case analysis on the comparisons of exponents and mantissas. *)
Ltac compare_cases :=
  repeat match goal with
    | |- context [Z.compare ?x ?y] => destruct (Z.compare_spec x y)
    | H : context [Z.compare ?x ?y] |- _ => destruct (Z.compare_spec x y)
    | |- context [PosDef.Pos.compare_cont Eq ?x ?y] =>
        change (PosDef.Pos.compare_cont Eq x y) with (Pos.compare x y);
        destruct (Pos.compare_spec x y)
    | H : context [PosDef.Pos.compare_cont Eq ?x ?y] |- _ =>
        change (PosDef.Pos.compare_cont Eq x y) with (Pos.compare x y) in H;
        destruct (Pos.compare_spec x y)
    end.

Section NumFacts.

Lemma lt_NaN_l (a : number) : Num.lt Num.NaN a = false.
Proof. reflexivity. Qed.

Lemma lt_NaN_r (a : number) : Num.lt a Num.NaN = false.
Proof. destruct a; reflexivity. Qed.

Lemma isNaN_spec (a : number) : Num.isNaN a = true <-> a = Num.NaN.
Proof. destruct a; simpl; split; intros H; try discriminate; reflexivity. Qed.

(** Exchanging the arguments of a comparison reverses its outcome. *)
Lemma SFcompare_swap (a b : number) :
  SFcompare b a = option_map CompOpp (SFcompare a b).
Proof.
  destruct a as [sa|sa| |sa ma ea], b as [sb|sb| |sb mb eb]; simpl;
    try reflexivity;
    try (destruct sa; reflexivity); try (destruct sb; reflexivity);
    try (destruct sa, sb; reflexivity).
  f_equal. rewrite (Z.compare_antisym ea eb).
  pose proof (Pos.compare_cont_antisym ma mb Eq) as Hm. simpl in Hm.
  rewrite <- Hm.
  destruct sa, sb; simpl; try reflexivity;
    destruct (ea ?= eb); simpl; try reflexivity;
    destruct (Pos.compare_cont Eq ma mb); reflexivity.
Qed.

Lemma lt_not_ge (a b : number) : Num.lt a b = true -> Num.ge a b = false.
Proof.
  unfold Num.lt, Num.ge, SFltb, SFleb. rewrite (SFcompare_swap a b).
  destruct (SFcompare a b) as [[]|]; simpl; congruence.
Qed.

Lemma gt_not_le (a b : number) : Num.gt a b = true -> Num.le a b = false.
Proof. unfold Num.gt, Num.le. intros H. exact (lt_not_ge b a H). Qed.

Lemma le_trans (a b c : number) :
  Num.le a b = true -> Num.le b c = true -> Num.le a c = true.
Proof.
  unfold Num.le, SFleb, SFcompare.
  destruct a as [[]|[]| |[] ma ea], b as [[]|[]| |[] mb eb],
    c as [[]|[]| |[] mc ec]; try (simpl; congruence);
    intros H1 H2; compare_cases; simpl in *; subst; try congruence; try lia.
Qed.

Lemma le_not_NaN (a b : number) :
  Num.le a b = true -> Num.isNaN a = false /\ Num.isNaN b = false.
Proof.
  unfold Num.le, SFleb.
  destruct a, b; simpl; intros H; split; reflexivity || discriminate.
Qed.

End NumFacts.

(** ** The ring test *)

Section RingFacts.

Variable point : Position.

Lemma toggle_xorb (c inside : bool) :
  (if c then negb inside else inside) = xorb inside c.
Proof. destruct c, inside; reflexivity. Qed.

(** The loop, started at index [length pre] with [ring[j] = prev], adds
    the parity of the remaining edges to [inside]; it stops at the end of
    the ring, whatever the steps left. *)
Lemma pointInRing_loop_parity (l pre : Ring) :
  forall (extra : nat) (prev : Position) (j : nat) (inside : bool),
    (l <> [] -> (pre ++ l) !! j = Some prev) ->
    pointInRing_loop point (pre ++ l) (length l + extra) (length pre) j
      inside
    = xorb inside (edge_parity point prev l).
Proof.
  revert pre. induction l as [|v l IH]; intros pre extra prev j inside Hj.
  - rewrite app_nil_r, xorb_false_r.
    destruct extra as [|extra]; simpl; [reflexivity|].
    now rewrite Nat.ltb_irrefl.
  - cbn [length Nat.add pointInRing_loop edge_parity].
    assert (Hlt : (length pre <? length (pre ++ v :: l))%nat = true).
    { apply Nat.ltb_lt. rewrite length_app. simpl. lia. }
    rewrite Hlt, (list_lookup_middle pre l v (length pre) eq_refl).
    rewrite Hj by discriminate.
    specialize (IH (pre ++ [v]) extra v (length pre)
                  (if crosses point v prev then negb inside else inside)).
    rewrite <- app_assoc, length_app in IH. simpl in IH.
    rewrite Nat.add_1_r in IH. rewrite IH.
    + rewrite toggle_xorb. now rewrite xorb_assoc.
    + intros _. now apply list_lookup_middle.
Qed.

Lemma pointInRing_loop_from_start (ring : Ring) (extra : nat) :
  pointInRing_loop point ring (length ring + extra) 0 (length ring - 1)
    false
  = match last ring with
    | Some prev => edge_parity point prev ring
    | None => false
    end.
Proof.
  destruct (last ring) as [prev|] eqn:Hlast.
  - pose proof (pointInRing_loop_parity ring [] extra prev
                  (length ring - 1) false) as H.
    simpl in H. rewrite H; [reflexivity|].
    intros _. rewrite <- Hlast, last_lookup. f_equal. lia.
  - apply last_None in Hlast. subst ring. now destruct extra.
Qed.

Lemma pointInRing_parity (ring : Ring) :
  pointInRing point ring
  = match last ring with
    | Some prev => edge_parity point prev ring
    | None => false
    end.
Proof.
  unfold pointInRing. rewrite <- (pointInRing_loop_from_start ring 0).
  now rewrite Nat.add_0_r.
Qed.

(** The [length ring] steps given to the loop are all it takes. *)
Lemma pointInRing_steps_enough (ring : Ring) (extra : nat) :
  pointInRing_loop point ring (length ring + extra) 0 (length ring - 1)
    false
  = pointInRing point ring.
Proof. now rewrite pointInRing_loop_from_start, pointInRing_parity. Qed.

Lemma edge_parity_app (l1 l2 : Ring) :
  forall prev,
    edge_parity point prev (l1 ++ l2)
    = xorb (edge_parity point prev l1)
        (edge_parity point (default prev (last l1)) l2).
Proof.
  induction l1 as [|v l1 IH]; intros prev; simpl.
  - reflexivity.
  - rewrite IH, xorb_assoc. do 3 f_equal.
    rewrite last_cons. now destruct (last l1).
Qed.

Lemma pointInRing_app_comm (a b : Ring) :
  pointInRing point (a ++ b) = pointInRing point (b ++ a).
Proof.
  destruct (last a) as [la|] eqn:Ha; cycle 1.
  { apply last_None in Ha. subst a. now rewrite app_nil_r. }
  destruct (last b) as [lb|] eqn:Hb; cycle 1.
  { apply last_None in Hb. subst b. now rewrite app_nil_r. }
  rewrite !pointInRing_parity, !last_app, Ha, Hb, !edge_parity_app.
  rewrite Ha, Hb. simpl. apply xorb_comm.
Qed.

(** C6. For every ring, every cyclic rotation of its vertex list ([rotate
    k] moves the first [k mod n] vertices to the end) and every point, the
    ring test gives the same result on the ring and on its rotation. *)
Theorem pointInRing_rotate (k : nat) (ring : Ring) :
  pointInRing point (rotate k ring) = pointInRing point ring.
Proof.
  unfold rotate. rewrite pointInRing_app_comm.
  now rewrite take_drop.
Qed.

(** A point with a NaN component crosses no edge. *)
Lemma crosses_NaN (vi vj : Position) :
  Num.isNaN (fst point) || Num.isNaN (snd point) = true ->
  crosses point vi vj = false.
Proof.
  unfold crosses. destruct point as [x y], vi as [xi yi], vj as [xj yj].
  simpl. intros H. apply orb_true_iff in H as [H|H];
    apply isNaN_spec in H; subst.
  - rewrite lt_NaN_l. apply andb_false_r.
  - unfold Num.gt. now rewrite !lt_NaN_l.
Qed.

Lemma edge_parity_NaN (l : Ring) :
  Num.isNaN (fst point) || Num.isNaN (snd point) = true ->
  forall prev, edge_parity point prev l = false.
Proof.
  intros H. induction l as [|v l IH]; intros prev; simpl.
  - reflexivity.
  - now rewrite crosses_NaN, IH.
Qed.

Lemma pointInRing_NaN (ring : Ring) :
  Num.isNaN (fst point) || Num.isNaN (snd point) = true ->
  pointInRing point ring = false.
Proof.
  intros H. rewrite pointInRing_parity.
  destruct (last ring); [now apply edge_parity_NaN | reflexivity].
Qed.

(** C7, as amended. A ring with no vertex or one vertex contains no
    point. On a ring of two vertices the test returns the exclusive or of
    the crossing test of its edge taken in both directions, which is false
    whenever the two vertices are not on different sides of the
    horizontal line through the point. *)
Theorem pointInRing_degenerate (ring : Ring) :
  (length ring < 3)%nat ->
  pointInRing point ring
  = match ring with
    | [a; b] => xorb (crosses point a b) (crosses point b a)
    | _ => false
    end
  /\ (forall a b, ring = [a; b] ->
      Num.gt (snd a) (snd point) = Num.gt (snd b) (snd point) ->
      pointInRing point ring = false).
Proof.
  intros Hlen.
  destruct ring as [|a [|b [|c ring]]]; simpl in Hlen; try lia.
  - split; [reflexivity | discriminate].
  - split; [|discriminate].
    unfold pointInRing. simpl. unfold crosses.
    destruct point as [x y], a as [xa ya]. now rewrite eqb_reflx.
  - assert (Hxor : pointInRing point [a; b]
                   = xorb (crosses point a b) (crosses point b a)).
    { unfold pointInRing. simpl.
      destruct (crosses point a b), (crosses point b a); reflexivity. }
    split; [exact Hxor|].
    intros a' b' [= <- <-] Hside. rewrite Hxor. unfold crosses.
    destruct point as [x y], a as [xa ya], b as [xb yb]. simpl in Hside.
    rewrite Hside, eqb_reflx. reflexivity.
Qed.

End RingFacts.

(** ** Polygons and geometries *)

Section ContainmentFacts.

Variable point : Position.

Lemma holes_loop_forallb (l : list Ring) :
  forall (pre : list Ring) (steps : nat),
    (length l <= steps)%nat ->
    holes_loop point (pre ++ l) steps (length pre) = forallb (outside point) l.
Proof.
  induction l as [|hole l IH]; intros pre steps Hsteps.
  - rewrite app_nil_r. destruct steps as [|steps]; simpl; [reflexivity|].
    now rewrite Nat.ltb_irrefl.
  - destruct steps as [|steps]; simpl in Hsteps; [lia|].
    cbn [holes_loop forallb].
    assert (Hlt : (length pre <? length (pre ++ hole :: l))%nat = true).
    { apply Nat.ltb_lt. rewrite length_app. simpl. lia. }
    rewrite Hlt, (list_lookup_middle pre l hole (length pre) eq_refl).
    unfold outside at 1. destruct (pointInRing point hole); simpl.
    + reflexivity.
    + specialize (IH (pre ++ [hole]) steps).
      rewrite <- app_assoc, length_app in IH. simpl in IH.
      rewrite Nat.add_1_r in IH. apply IH. lia.
Qed.

Lemma isPointInPolygon_eq (polygon : list Ring) :
  isPointInPolygon point polygon
  = match polygon with
    | [] => Throw TypeError
    | exterior :: holes =>
        Ok (pointInRing point exterior && forallb (outside point) holes)
    end.
Proof.
  destruct polygon as [|exterior holes]; [reflexivity|].
  unfold isPointInPolygon. cbn [lookup list_lookup].
  destruct (pointInRing point exterior); simpl negb; cbv iota;
    [|reflexivity].
  pose proof (holes_loop_forallb holes [exterior] (length (exterior :: holes)))
    as H.
  simpl in H. simpl. rewrite H by lia. reflexivity.
Qed.

Lemma forallb_outside (holes : list Ring) :
  forallb (outside point) holes = true
  <-> Forall (fun hole => pointInRing point hole = false) holes.
Proof.
  rewrite forallb_forall, Forall_forall. unfold outside.
  split; intros H hole Hin.
  - apply list_elem_of_In, H in Hin. now apply negb_true_iff.
  - apply list_elem_of_In, H in Hin. now apply negb_true_iff.
Qed.

Lemma isPointInPolygon_rule (polygon : list Ring) :
  isPointInPolygon point polygon = Ok true
  <-> inside_exterior_outside_holes point polygon.
Proof.
  rewrite isPointInPolygon_eq. unfold inside_exterior_outside_holes.
  destruct polygon as [|exterior holes].
  - split; [discriminate | intros (? & ? & ? & _); discriminate].
  - split.
    + intros [= H]. apply andb_true_iff in H as [Hext Hholes].
      exists exterior, holes. now rewrite <- forallb_outside.
    + intros (ext & hs & [= <- <-] & Hext & Hholes).
      apply forallb_outside in Hholes. now rewrite Hext, Hholes.
Qed.

Lemma isPointInPolygon_throws (polygon : list Ring) :
  is_throw (isPointInPolygon point polygon) = true <-> polygon = [].
Proof.
  rewrite isPointInPolygon_eq.
  destruct polygon; simpl; split; congruence.
Qed.

(** [some] answers true exactly when the callback does on some element
    and returned false, without throwing, on all elements before it. *)
Lemma some_true {A} (callback : A -> Result bool) (l : list A) :
  some callback l = Ok true
  <-> exists before x after,
      l = before ++ x :: after
      /\ Forall (fun y => callback y = Ok false) before
      /\ callback x = Ok true.
Proof.
  induction l as [|y l IH]; simpl.
  - split; [discriminate|].
    intros (before & x & after & H & _). now destruct before.
  - destruct (callback y) as [[|]|e] eqn:Hy.
    + split; [intros _|reflexivity].
      exists [], y, l. repeat split; [constructor | exact Hy].
    + rewrite IH. split.
      * intros (before & x & after & -> & Hbefore & Hx).
        exists (y :: before), x, after.
        repeat split; [constructor; assumption | exact Hx].
      * intros (before & x & after & Heq & Hbefore & Hx).
        destruct before as [|y' before]; simpl in Heq.
        -- injection Heq as -> ->. congruence.
        -- injection Heq as -> ->. exists before, x, after.
           inversion Hbefore; subst. now repeat split.
    + split; [discriminate|].
      intros (before & x & after & Heq & Hbefore & Hx).
      destruct before as [|y' before]; simpl in Heq.
      * injection Heq as -> ->. congruence.
      * injection Heq as -> ->. inversion Hbefore; subst. congruence.
Qed.

Lemma try_or_false_true (r : Result bool) :
  try_or r false = true <-> r = Ok true.
Proof. destruct r as [[|]|e]; simpl; split; congruence. Qed.

(** The tests of [isPointInGeometry] with the order of evaluation made
    explicit: the polygons of a MultiPolygon are tried in turn, and the
    test of a polygon is reached when those before it have a ring. *)
Lemma isPointInGeometry_in_turn :
  (forall polygon,
      isPointInGeometry point (Some (Polygon (Some polygon))) = true
      <-> inside_exterior_outside_holes point polygon)
  /\ (forall polygons,
      isPointInGeometry point (Some (MultiPolygon (Some polygons))) = true
      <-> exists before polygon after,
          polygons = before ++ polygon :: after
          /\ Forall (fun earlier => earlier <> []) before
          /\ inside_exterior_outside_holes point polygon)
  /\ isPointInGeometry point (Some (MultiPolygon (Some []))) = false.
Proof.
  split; [|split].
  - intros polygon. simpl. now rewrite try_or_false_true, isPointInPolygon_rule.
  - intros polygons. simpl. rewrite try_or_false_true, some_true. split.
    + intros (before & polygon & after & -> & Hbefore & Hin).
      exists before, polygon, after. repeat split.
      * eapply Forall_impl; [exact Hbefore|].
        intros earlier Hfalse ->. discriminate.
      * now apply isPointInPolygon_rule.
    + intros (before & polygon & after & -> & Hbefore & Hin).
      apply isPointInPolygon_rule in Hin.
      induction before as [|earlier before IH].
      * exists [], polygon, after. now repeat split.
      * inversion Hbefore as [|? ? Hne Hrest]; subst.
        destruct (IH Hrest) as (b & x & a & Heq & Hb & Hx).
        destruct (isPointInPolygon point earlier) as [[|]|e] eqn:He.
        -- exists [], earlier, (before ++ polygon :: after).
           now repeat split.
        -- exists (earlier :: b), x, a. simpl. rewrite Heq.
           repeat split; [constructor; assumption | exact Hx].
        -- exfalso. apply Hne. apply isPointInPolygon_throws.
           now rewrite He.
  - reflexivity.
Qed.

(** C3. A Polygon geometry contains the point if and only if the point
    is inside the exterior (first) ring and inside none of the hole
    (subsequent) rings. A MultiPolygon geometry, each of whose polygons
    has its exterior ring as the data model has it, contains the point if
    and only if some constituent polygon contains it under that rule. A
    geometry with zero constituent polygons contains no point. *)
Theorem isPointInGeometry_contains_iff :
  (forall polygon,
      isPointInGeometry point (Some (Polygon (Some polygon))) = true
      <-> inside_exterior_outside_holes point polygon)
  /\ (forall polygons,
      Forall (fun polygon => polygon <> []) polygons ->
      isPointInGeometry point (Some (MultiPolygon (Some polygons))) = true
      <-> Exists (inside_exterior_outside_holes point) polygons)
  /\ isPointInGeometry point (Some (MultiPolygon (Some []))) = false.
Proof.
  destruct isPointInGeometry_in_turn as (Hpolygon & Hmulti & Hnone).
  split; [exact Hpolygon|]. split; [|exact Hnone].
  intros polygons Hrings. rewrite Hmulti. split.
  - intros (before & polygon & after & -> & _ & Hin).
    apply Exists_app. right. now apply Exists_cons_hd.
  - intros Hsome. apply Exists_exists in Hsome as (polygon & Hmember & Hin).
    apply list_elem_of_split in Hmember as (before & after & ->).
    exists before, polygon, after. split; [reflexivity|].
    split; [|exact Hin]. now apply Forall_app in Hrings as [Hbefore _].
Qed.

(** A point with a NaN component is in no geometry. *)
Lemma isPointInGeometry_NaN (geometry : option Geometry) :
  Num.isNaN (fst point) || Num.isNaN (snd point) = true ->
  isPointInGeometry point geometry = false.
Proof.
  intros HNaN.
  assert (Hpoly : forall polygon,
             isPointInPolygon point polygon <> Ok true).
  { intros [|exterior holes]; rewrite isPointInPolygon_eq; [discriminate|].
    now rewrite pointInRing_NaN. }
  destruct geometry as [[[polygon|]|[polygons|]|type]|]; simpl;
    try reflexivity.
  - specialize (Hpoly polygon).
    destruct (isPointInPolygon point polygon) as [[|]|]; simpl; congruence.
  - induction polygons as [|polygon polygons IH]; simpl; [reflexivity|].
    specialize (Hpoly polygon).
    destruct (isPointInPolygon point polygon) as [[|]|]; simpl; congruence.
Qed.

End ContainmentFacts.

(** C7, as stated, fails on a ring of two vertices: rounding makes the two
    directions of the edge from (0,0) to (1,3) disagree at height 1. *)
Lemma two_vertex_ring_contains :
  (length segment < 3)%nat
  /\ pointInRing (third, Num.of_Z 1) segment = true.
Proof. split; [simpl; lia | vm_compute; reflexivity]. Qed.

Lemma pointInRing_degenerate_witness :
  pointInRing (pos 5 5) [pos 0 0] = false.
Proof.
  exact (proj1 (pointInRing_degenerate (pos 5 5) [pos 0 0]
                  ltac:(simpl; lia))).
Defined.

(** ** The geometry store *)

Section StoreFacts.

Variable w : World.
Variable st : Service.

Lemma shouldRefresh_eq :
  shouldRefreshCommunityCache w st
  = (Ok ((now_on_entry w - lastCommunityLoadTime st >? CACHE_DURATION)
         || (length (communityAreasCache st) =? 0)%nat), st).
Proof. reflexivity. Qed.

Lemma refresh_due_iff :
  refresh_due w st
  <-> now_on_entry w - lastCommunityLoadTime st > CACHE_DURATION
      \/ communityAreasCache st = [].
Proof.
  unfold refresh_due. rewrite shouldRefresh_eq. simpl. split.
  - intros [= H]. apply orb_true_iff in H as [H|H].
    + left. now apply Z.gtb_gt.
    + right. apply Nat.eqb_eq in H. now destruct (communityAreasCache st).
  - intros [H|H]; f_equal; apply orb_true_iff.
    + left. now apply Z.gtb_gt.
    + right. now rewrite H.
Qed.

Lemma not_refresh_due_iff :
  ~ refresh_due w st
  <-> now_on_entry w - lastCommunityLoadTime st <= CACHE_DURATION
      /\ communityAreasCache st <> [].
Proof.
  rewrite refresh_due_iff. split.
  - intros H. split; [lia|]. intros Hnil. apply H. now right.
  - intros [Hle Hne] [H|H]; [lia | contradiction].
Qed.

(** Fetching and filtering reads the world and leaves the service as it
    is. *)
Lemma fetch_and_filter_pure : snd (fetch_and_filter w st) = st.
Proof.
  unfold fetch_and_filter, bind, fetch.
  destruct (feed w) as [|[|] statusText [|[|elements]]]; simpl;
    try reflexivity.
  unfold data_filter. now destruct (filter_elements elements).
Qed.

Lemma loadCommunityAreas_eq :
  loadCommunityAreas w st
  = match fst (fetch_and_filter w st) with
    | Throw e => (Throw e, st)
    | Ok areas =>
        (Ok tt, {| communityAreasCache := areas;
                   lastCommunityLoadTime := now_after_load w |})
    end.
Proof.
  unfold loadCommunityAreas, try_catch, bind at 1.
  pose proof fetch_and_filter_pure as Hpure.
  destruct (fetch_and_filter w st) as [[areas|e] st']; simpl in *; subst st';
    reflexivity.
Qed.

Lemma ensureCommunityAreasLoaded_eq :
  ensureCommunityAreasLoaded w st
  = if (now_on_entry w - lastCommunityLoadTime st >? CACHE_DURATION)
       || (length (communityAreasCache st) =? 0)%nat
    then loadCommunityAreas w st
    else (Ok tt, st).
Proof.
  unfold ensureCommunityAreasLoaded, bind at 1. rewrite shouldRefresh_eq.
  now destruct (_ || _).
Qed.

Lemma ensure_when_due :
  refresh_due w st ->
  ensureCommunityAreasLoaded w st = loadCommunityAreas w st.
Proof.
  unfold refresh_due. rewrite ensureCommunityAreasLoaded_eq, shouldRefresh_eq.
  simpl. now intros [= ->].
Qed.

Lemma ensure_when_not_due :
  ~ refresh_due w st -> ensureCommunityAreasLoaded w st = (Ok tt, st).
Proof.
  unfold refresh_due. rewrite ensureCommunityAreasLoaded_eq, shouldRefresh_eq.
  simpl. destruct (_ || _); [intros H; now destruct H | reflexivity].
Qed.

Lemma getCommunityAreaForCoordinates_eq (lat lng : number) :
  getCommunityAreaForCoordinates lat lng w st
  = match ensureCommunityAreasLoaded w st with
    | (Ok _, st') =>
        (Ok (first_containing (lng, lat) (communityAreasCache st')), st')
    | (Throw e, st') => (Throw e, st')
    end.
Proof.
  unfold getCommunityAreaForCoordinates, bind at 1.
  now destruct (ensureCommunityAreasLoaded w st) as [[[]|e] st'].
Qed.

(** C5. If the fetch-and-reparse step of the refresh fails, the refresh
    signals that error and leaves the store as it was: the cached records
    and the last-refresh timestamp are those of before. Conversely a
    refresh that signals an error has changed nothing. *)
Theorem loadCommunityAreas_failure_keeps_store :
  (forall e,
      fst (fetch_and_filter w st) = Throw e ->
      loadCommunityAreas w st = (Throw e, st))
  /\ (forall e st',
      loadCommunityAreas w st = (Throw e, st') -> st' = st).
Proof.
  rewrite loadCommunityAreas_eq. split.
  - now intros e ->.
  - intros e st'. destruct (fst (fetch_and_filter w st)); congruence.
Qed.

End StoreFacts.

(** ** The classifier *)

Section ClassifierFacts.

Variable point : Position.

Lemma first_containing_hit (before after : list CommunityArea)
  (area : CommunityArea) :
  Forall (fun earlier => contains_point point earlier = false) before ->
  contains_point point area = true ->
  first_containing point (before ++ area :: after) = identifier_or_null area.
Proof.
  unfold contains_point. intros Hbefore Harea.
  induction Hbefore as [|earlier before Hearlier _ IH]; simpl.
  - now rewrite Harea.
  - now rewrite Hearlier.
Qed.

Lemma first_containing_miss (areas : list CommunityArea) :
  Forall (fun area => contains_point point area = false) areas ->
  first_containing point areas = None.
Proof.
  unfold contains_point. intros Hall.
  induction Hall as [|area areas Harea _ IH]; simpl.
  - reflexivity.
  - now rewrite Harea.
Qed.

Lemma first_containing_NaN (areas : list CommunityArea) :
  Num.isNaN (fst point) || Num.isNaN (snd point) = true ->
  first_containing point areas = None.
Proof.
  intros HNaN. apply first_containing_miss, Forall_forall.
  intros area _. now apply isPointInGeometry_NaN.
Qed.

End ClassifierFacts.

(** C1, as amended. Whenever the freshness step of a call succeeds (in
    particular when no refresh is due, and then the store is left as it
    is), the classifier goes through the cached records in stored order
    and, at the first record whose geometry contains (longitude,
    latitude), returns [parseInt] of its identifier, or null when that
    number is NaN or zero; when no record contains the point it returns
    null. *)
Theorem classifier_first_match (w : World) (st st' : Service)
  (lat lng : number) :
  ensureCommunityAreasLoaded w st = (Ok tt, st') ->
  (forall before area after,
      communityAreasCache st' = before ++ area :: after ->
      Forall (fun earlier => contains_point (lng, lat) earlier = false)
        before ->
      contains_point (lng, lat) area = true ->
      getCommunityAreaForCoordinates lat lng w st
      = (Ok (identifier_or_null area), st'))
  /\ (Forall (fun area => contains_point (lng, lat) area = false)
        (communityAreasCache st') ->
      getCommunityAreaForCoordinates lat lng w st = (Ok None, st'))
  /\ (~ refresh_due w st -> st' = st).
Proof.
  intros Hensure. rewrite getCommunityAreaForCoordinates_eq, Hensure.
  split; [|split].
  - intros before area after -> Hbefore Harea.
    now rewrite first_containing_hit.
  - intros Hall. now rewrite first_containing_miss.
  - intros Hfresh. rewrite ensure_when_not_due in Hensure by assumption.
    congruence.
Qed.

(** C2, as amended. A classifier call whose lazy refresh attempt fails
    does not complete: it rejects with the error of the failed fetch, and
    leaves the cached records and the last-refresh timestamp as they
    were. The cached records serve a call, without any fetch, when no
    refresh is due. *)
Theorem classifier_refresh_failure (w : World) (st : Service)
  (lat lng : number) :
  (forall e,
      refresh_due w st ->
      fst (fetch_and_filter w st) = Throw e ->
      getCommunityAreaForCoordinates lat lng w st = (Throw e, st))
  /\ (~ refresh_due w st ->
      getCommunityAreaForCoordinates lat lng w st
      = (Ok (first_containing (lng, lat) (communityAreasCache st)), st)).
Proof.
  rewrite getCommunityAreaForCoordinates_eq. split.
  - intros e Hdue Hfail. rewrite ensure_when_due by assumption.
    now rewrite loadCommunityAreas_eq, Hfail.
  - intros Hfresh. now rewrite ensure_when_not_due.
Qed.

(** C4, as amended. The classifier does not validate its input. For
    coordinates that fail the validation rule, as for any others, a call
    whose freshness step succeeds completes with the result of the search
    through the cache, and that result is null when a component is NaN;
    the only errors of a call are those of the refresh. *)
Theorem classifier_does_not_validate (w : World) (st : Service)
  (lat lng : number) :
  isValidCoordinates (lat, lng) = false ->
  (forall st',
      ensureCommunityAreasLoaded w st = (Ok tt, st') ->
      getCommunityAreaForCoordinates lat lng w st
      = (Ok (first_containing (lng, lat) (communityAreasCache st')), st')
      /\ (Num.isNaN lat || Num.isNaN lng = true ->
          getCommunityAreaForCoordinates lat lng w st = (Ok None, st')))
  /\ (forall e,
      fst (getCommunityAreaForCoordinates lat lng w st) = Throw e
      <-> fst (ensureCommunityAreasLoaded w st) = Throw e).
Proof.
  intros _. rewrite getCommunityAreaForCoordinates_eq. split.
  - intros st' ->. split; [reflexivity|].
    intros HNaN. rewrite first_containing_NaN; [reflexivity|].
    simpl. now rewrite orb_comm.
  - intros e.
    destruct (ensureCommunityAreasLoaded w st) as [[[]|e'] st']; simpl;
      split; congruence.
Qed.

(** ** The invariant of the cache *)

Section CacheInvariant.

Lemma has_required_fields_complete (area : CommunityArea) :
  has_required_fields area = true -> complete area.
Proof.
  unfold has_required_fields, complete.
  destruct (the_geom area), (area_numbe area) as [[|]|],
    (community area) as [[|]|]; simpl; try discriminate; eauto.
Qed.

Lemma missing_field_rejected (area : CommunityArea) :
  the_geom area = None \/ area_numbe area = None \/ community area = None ->
  has_required_fields area = false.
Proof.
  unfold has_required_fields. intros [H|[H|H]]; rewrite H; simpl.
  - reflexivity.
  - now rewrite andb_false_r.
  - apply andb_false_r.
Qed.

(** The records kept by the filter are those of the feed that have the
    required properties. *)
Lemma filter_elements_kept (elements : list (option CommunityArea)) :
  forall kept,
    filter_elements elements = Ok kept ->
    forall area,
      In area kept
      <-> In (Some area) elements /\ has_required_fields area = true.
Proof.
  induction elements as [|[first|] elements IH]; simpl; intros kept Hkept.
  - injection Hkept as <-. simpl. tauto.
  - destruct (filter_elements elements) as [rest|]; [|discriminate].
    injection Hkept as <-. intros area. specialize (IH rest eq_refl area).
    destruct (has_required_fields first) eqn:Hfirst; simpl; rewrite IH.
    + split.
      * intros [->|[Hin Hreq]]; auto.
      * intros [[[= ->]|Hin] Hreq]; auto.
    + split.
      * intros [Hin Hreq]; auto.
      * intros [[[= ->]|Hin] Hreq]; [congruence | auto].
  - discriminate.
Qed.

Lemma fetch_and_filter_kept (w : World) (st : Service)
  (areas : list CommunityArea) :
  fst (fetch_and_filter w st) = Ok areas ->
  exists statusText elements,
    feed w = Responded true statusText (Parsed (JsonArray elements))
    /\ filter_elements elements = Ok areas.
Proof.
  unfold fetch_and_filter, bind, fetch.
  destruct (feed w) as [|[|] statusText [|[|elements]]]; simpl;
    try discriminate.
  unfold data_filter.
  destruct (filter_elements elements) as [kept|] eqn:Hkept; simpl;
    [|discriminate].
  intros [= <-]. eauto.
Qed.

Lemma loadCommunityAreas_complete (w : World) (st : Service) :
  Forall complete (communityAreasCache st) ->
  Forall complete (communityAreasCache (snd (loadCommunityAreas w st))).
Proof.
  intros Hinv. rewrite loadCommunityAreas_eq.
  destruct (fst (fetch_and_filter w st)) as [areas|e] eqn:Hfetch; simpl;
    [|exact Hinv].
  apply fetch_and_filter_kept in Hfetch as (text & elements & _ & Hkept).
  apply Forall_forall. intros area Hin.
  apply list_elem_of_In, (filter_elements_kept _ _ Hkept) in Hin.
  now apply has_required_fields_complete.
Qed.

Lemma ensureCommunityAreasLoaded_complete (w : World) (st : Service) :
  Forall complete (communityAreasCache st) ->
  Forall complete
    (communityAreasCache (snd (ensureCommunityAreasLoaded w st))).
Proof.
  intros Hinv. rewrite ensureCommunityAreasLoaded_eq.
  destruct (_ || _); [now apply loadCommunityAreas_complete | exact Hinv].
Qed.

Lemma getCommunityAreaForCoordinates_state (w : World) (st : Service)
  (lat lng : number) :
  snd (getCommunityAreaForCoordinates lat lng w st)
  = snd (ensureCommunityAreasLoaded w st).
Proof.
  rewrite getCommunityAreaForCoordinates_eq.
  now destruct (ensureCommunityAreasLoaded w st) as [[[]|e] st'].
Qed.

Lemma correctParkCommunityArea_state (w : World) (st : Service)
  (park : Park) :
  snd (correctParkCommunityArea park w st)
  = snd (ensureCommunityAreasLoaded w st).
Proof.
  unfold correctParkCommunityArea. destruct (coordinates park) as [lat lng].
  unfold bind at 1.
  rewrite <- (getCommunityAreaForCoordinates_state w st lat lng).
  destruct (getCommunityAreaForCoordinates lat lng w st)
    as [[[actual|]|e] st']; simpl; try reflexivity.
  now destruct (_ && _).
Qed.

Lemma step_complete (st st' : Service) :
  step st st' ->
  Forall complete (communityAreasCache st) ->
  Forall complete (communityAreasCache st').
Proof.
  intros [w lat lng|w park|w|w] Hinv.
  - rewrite getCommunityAreaForCoordinates_state.
    now apply ensureCommunityAreasLoaded_complete.
  - rewrite correctParkCommunityArea_state.
    now apply ensureCommunityAreasLoaded_complete.
  - now apply ensureCommunityAreasLoaded_complete.
  - now apply loadCommunityAreas_complete.
Qed.

(** C9. In every state the service can reach from its creation by its
    operations, every cached record has a geometry, an identifier and a
    display name. After a successful refresh the cache holds the records
    of the feed that pass the presence test and no other, so a record
    missing one of the three is not in it. *)
Theorem cache_records_complete :
  (forall st, reachable st -> Forall complete (communityAreasCache st))
  /\ (forall w st st',
      loadCommunityAreas w st = (Ok tt, st') ->
      exists statusText elements,
        feed w = Responded true statusText (Parsed (JsonArray elements))
        /\ (forall area,
            In area (communityAreasCache st')
            <-> In (Some area) elements /\ has_required_fields area = true)
        /\ (forall area,
            the_geom area = None \/ area_numbe area = None
            \/ community area = None ->
            ~ In area (communityAreasCache st'))).
Proof.
  split.
  - intros st Hreach. induction Hreach as [|st st' _ IH Hstep].
    + constructor.
    + now apply (step_complete st st').
  - intros w st st'. rewrite loadCommunityAreas_eq.
    destruct (fst (fetch_and_filter w st)) as [areas|e] eqn:Hfetch;
      [|discriminate].
    intros [= <-]. simpl.
    apply fetch_and_filter_kept in Hfetch as (text & elements & Hfeed & Hkept).
    exists text, elements. split; [exact Hfeed|]. split.
    + now apply filter_elements_kept.
    + intros area Hmissing Hin.
      apply (filter_elements_kept _ _ Hkept) in Hin as [_ Hreq].
      rewrite missing_field_rejected in Hreq by assumption. discriminate.
Qed.

End CacheInvariant.

(** ** Correcting a park *)

(** C10. The park returned by [correctParkCommunityArea] differs from the
    given one in its community area at most; it is the given park itself
    when the classifier returns null or a number equal to the stored
    assignment. *)
Theorem correctParkCommunityArea_frame (w : World) (st st' : Service)
  (park park' : Park) :
  correctParkCommunityArea park w st = (Ok park', st') ->
  (id park' = id park /\ name park' = name park
   /\ address park' = address park /\ coordinates park' = coordinates park
   /\ amenities park' = amenities park
   /\ description park' = description park /\ size park' = size park)
  /\ (forall actual,
      fst (getCommunityAreaForCoordinates
             (fst (coordinates park)) (snd (coordinates park)) w st)
      = Ok actual ->
      actual = None
      \/ (exists n, actual = Some n
                    /\ Num.strict_eq n (communityArea park) = true) ->
      park' = park).
Proof.
  unfold correctParkCommunityArea.
  destruct (coordinates park) as [lat lng] eqn:Hcoordinates.
  unfold bind at 1. simpl fst. simpl snd.
  destruct (getCommunityAreaForCoordinates lat lng w st)
    as [[[actual|]|e] st1]; simpl.
  - destruct (Num.truthy actual
              && negb (Num.strict_eq actual (communityArea park))) eqn:Hc;
      intros [= <- <-].
    + split; [simpl; repeat split; assumption|].
      intros r [= <-] [Hnone|(n & [= <-] & Heq)]; [discriminate|].
      rewrite Heq, andb_false_r in Hc. discriminate.
    + split; [repeat split; assumption | intros; reflexivity].
  - intros [= <- <-]. split; [repeat split; assumption | intros; reflexivity].
  - discriminate.
Qed.

(** ** The coordinate validator *)

Section ValidatorFacts.

Lemma isValidChicagoCoordinates_within (lat lng : number) :
  isValidChicagoCoordinates lat lng = true
  <-> within south lat north /\ within west lng east.
Proof.
  unfold isValidChicagoCoordinates, within.
  fold south north west east.
  rewrite !andb_true_iff. tauto.
Qed.

Lemma isValidCoordinates_within (lat lng : number) :
  isValidCoordinates (lat, lng) = true
  <-> Num.isNaN lat = false /\ Num.isNaN lng = false
      /\ within (Num.neg (Num.of_Z 90)) lat (Num.of_Z 90)
      /\ within (Num.neg (Num.of_Z 180)) lng (Num.of_Z 180)
      /\ within south lat north /\ within west lng east.
Proof.
  unfold isValidCoordinates.
  rewrite !andb_true_iff, !negb_true_iff, isValidChicagoCoordinates_within.
  unfold within. tauto.
Qed.

(** The regional box lies inside the envelope of all coordinates. *)
Lemma box_in_envelope (lat lng : number) :
  within south lat north -> within west lng east ->
  Num.isNaN lat = false /\ Num.isNaN lng = false
  /\ within (Num.neg (Num.of_Z 90)) lat (Num.of_Z 90)
  /\ within (Num.neg (Num.of_Z 180)) lng (Num.of_Z 180).
Proof.
  unfold within, Num.ge. intros [Hs Hn] [Hw He].
  repeat split.
  - now apply le_not_NaN in Hn.
  - now apply le_not_NaN in He.
  - apply (le_trans _ south); [vm_compute; reflexivity | exact Hs].
  - apply (le_trans _ north); [exact Hn | vm_compute; reflexivity].
  - apply (le_trans _ west); [vm_compute; reflexivity | exact Hw].
  - apply (le_trans _ east); [exact He | vm_compute; reflexivity].
Qed.

Lemma within_box_valid (lat lng : number) :
  within south lat north -> within west lng east ->
  isValidCoordinates (lat, lng) = true.
Proof.
  intros Hlat Hlng. apply isValidCoordinates_within.
  pose proof (box_in_envelope lat lng Hlat Hlng). tauto.
Qed.

Lemma bounds_ordered : within south south north /\ within south north north
                       /\ within west west east /\ within west east east.
Proof. vm_compute. tauto. Qed.

(** C8. The validator accepts a pair (latitude, longitude) exactly when
    neither component is NaN, the pair is within the envelope
    [-90, 90] x [-180, 180], and it is within the regional box. A pair
    with one component exactly on an edge of the box and the other within
    the box is accepted; a pair with a component strictly beyond a bound of
    the box is rejected. *)
Theorem isValidCoordinates_spec (lat lng : number) :
  (isValidCoordinates (lat, lng) = true
   <-> Num.isNaN lat = false /\ Num.isNaN lng = false
       /\ within (Num.neg (Num.of_Z 90)) lat (Num.of_Z 90)
       /\ within (Num.neg (Num.of_Z 180)) lng (Num.of_Z 180)
       /\ within south lat north /\ within west lng east)
  /\ (within west lng east ->
      isValidCoordinates (south, lng) = true
      /\ isValidCoordinates (north, lng) = true)
  /\ (within south lat north ->
      isValidCoordinates (lat, west) = true
      /\ isValidCoordinates (lat, east) = true)
  /\ (Num.lt lat south = true \/ Num.gt lat north = true
      \/ Num.lt lng west = true \/ Num.gt lng east = true ->
      isValidCoordinates (lat, lng) = false).
Proof.
  destruct bounds_ordered as (Hs & Hn & Hw & He).
  split; [apply isValidCoordinates_within|]. split; [|split].
  - intros Hlng. split; now apply within_box_valid.
  - intros Hlat. split; now apply within_box_valid.
  - intros Hout. apply not_true_is_false. intros Hvalid.
    apply isValidCoordinates_within in Hvalid
      as (_ & _ & _ & _ & [Hlat1 Hlat2] & [Hlng1 Hlng2]).
    destruct Hout as [H|[H|[H|H]]].
    + apply lt_not_ge in H. congruence.
    + apply gt_not_le in H. congruence.
    + apply lt_not_ge in H. congruence.
    + apply gt_not_le in H. congruence.
Qed.

End ValidatorFacts.

(** ** The statements at concrete inputs *)

Section Scenarios.

(** The first scenario: the square ring. *)
Example square_scenario :
  pointInRing (pos 5 5) square = true
  /\ pointInRing (pos 15 15) square = false
  /\ pointInRing (pos 0 5) square = true.
Proof. vm_compute. tauto. Qed.

(** The second scenario: the donut. *)
Example donut_scenario :
  isPointInGeometry (pos 5 5) (Some (Polygon (Some donut))) = false
  /\ isPointInGeometry (pos 1 1) (Some (Polygon (Some donut))) = true.
Proof. vm_compute. tauto. Qed.

Example parseInt_examples :
  ParseInt.parseInt "1" = Num.of_Z 1
  /\ ParseInt.parseInt "77 west" = Num.of_Z 77
  /\ ParseInt.parseInt " -0x1F" = Num.of_Z (-31)
  /\ ParseInt.parseInt "0" = S754_zero false
  /\ ParseInt.parseInt "-0" = S754_zero true
  /\ ParseInt.parseInt "north" = Num.NaN
  /\ ParseInt.parseInt (ParseInt.to_string None) = Num.NaN.
Proof. vm_compute. tauto. Qed.

(** The literals of the box are the doubles nearest to them. *)
Example bounds_values :
  south = S754_finite false 5854679515581645 (-47)
  /\ north = S754_finite false 5925048259759309 (-47)
  /\ west = S754_finite true 6213560110887731 (-46)
  /\ east = S754_finite true 6157265115545600 (-46).
Proof. vm_compute. tauto. Qed.

(** A record of the feed without identifier is not admitted. *)
Example feed_without_identifier :
  communityAreasCache
    (snd (loadCommunityAreas
            (online 100 [Some area_one; Some area_without_number])
            new_GeospatialService))
  = [area_one].
Proof. reflexivity. Qed.

(** C1, as stated, fails on a record numbered "0": its geometry is the
    first, and only, that contains the point, and the classifier returns
    null instead of its identifier. *)
Lemma classifier_zero_identifier :
  communityAreasCache (loaded [area_zero] 50) = [area_zero]
  /\ ~ refresh_due (offline 100) (loaded [area_zero] 50)
  /\ contains_point (five, five) area_zero = true
  /\ ParseInt.parseInt (ParseInt.to_string (area_numbe area_zero))
     = Num.of_Z 0
  /\ getCommunityAreaForCoordinates five five (offline 100)
       (loaded [area_zero] 50)
     = (Ok None, loaded [area_zero] 50).
Proof.
  split; [reflexivity|]. split; [intros [=]|].
  vm_compute. tauto.
Qed.

Lemma classifier_first_match_witness :
  getCommunityAreaForCoordinates five five (offline 100)
    (loaded [area_one] 50)
  = (Ok (Some (Num.of_Z 1)), loaded [area_one] 50).
Proof.
  apply (proj1 (classifier_first_match (offline 100) (loaded [area_one] 50)
                  (loaded [area_one] 50) five five eq_refl)
           [] area_one []).
  - reflexivity.
  - constructor.
  - vm_compute. reflexivity.
Defined.

(** C2, as stated, fails on a store loaded at time 50 and asked again
    more than an hour later while the feed is unreachable: the call
    rejects although a record is cached. *)
Lemma stale_store_lookup_rejects :
  communityAreasCache (loaded [area_one] 50) <> []
  /\ is_throw (fst (loadCommunityAreas (offline 3600051)
                      (loaded [area_one] 50))) = true
  /\ getCommunityAreaForCoordinates five five (offline 3600051)
       (loaded [area_one] 50)
     = (Throw NetworkError, loaded [area_one] 50).
Proof. split; [discriminate|]. vm_compute. tauto. Qed.

Lemma classifier_refresh_failure_witness :
  getCommunityAreaForCoordinates five five (offline 3600051)
    (loaded [area_one] 50)
  = (Throw NetworkError, loaded [area_one] 50).
Proof.
  apply (proj1 (classifier_refresh_failure (offline 3600051)
                  (loaded [area_one] 50) five five)).
  - reflexivity.
  - reflexivity.
Defined.

(** C4, as stated, fails: for NaN coordinates the classifier returns
    null, and for the point (5, 5), far outside the regional box, it
    returns an identifier; neither call is refused. *)
Lemma invalid_coordinates_classified :
  isValidCoordinates (Num.NaN, Num.NaN) = false
  /\ getCommunityAreaForCoordinates Num.NaN Num.NaN (offline 100)
       (loaded [area_one] 50)
     = (Ok None, loaded [area_one] 50)
  /\ isValidCoordinates (five, five) = false
  /\ getCommunityAreaForCoordinates five five (offline 100)
       (loaded [area_one] 50)
     = (Ok (Some (Num.of_Z 1)), loaded [area_one] 50).
Proof. vm_compute. tauto. Qed.

Lemma classifier_does_not_validate_witness :
  getCommunityAreaForCoordinates Num.NaN Num.NaN (offline 100)
    (loaded [area_one] 50)
  = (Ok None, loaded [area_one] 50).
Proof.
  apply (proj1 (classifier_does_not_validate (offline 100)
                  (loaded [area_one] 50) Num.NaN Num.NaN eq_refl)
           (loaded [area_one] 50) eq_refl).
  reflexivity.
Defined.

Lemma loadCommunityAreas_failure_keeps_store_witness :
  loadCommunityAreas (offline 3600051) (loaded [area_one] 50)
  = (Throw NetworkError, loaded [area_one] 50).
Proof.
  apply (proj1 (loadCommunityAreas_failure_keeps_store (offline 3600051)
                  (loaded [area_one] 50))).
  reflexivity.
Defined.

Lemma cache_records_complete_witness :
  Forall complete
    (communityAreasCache
       (snd (loadCommunityAreas
               (online 100 [Some area_one; Some area_without_number])
               new_GeospatialService))).
Proof.
  apply (proj1 cache_records_complete).
  eapply reachable_step; [apply reachable_new | apply step_load].
Defined.

Lemma correctParkCommunityArea_frame_witness :
  correctParkCommunityArea (a_park (Num.of_Z 3)) (offline 100)
    (loaded [area_one] 50)
  = (Ok (with_communityArea (a_park (Num.of_Z 3)) (Num.of_Z 1)),
     loaded [area_one] 50)
  /\ name (with_communityArea (a_park (Num.of_Z 3)) (Num.of_Z 1))
     = name (a_park (Num.of_Z 3)).
Proof.
  split; [reflexivity|].
  apply (correctParkCommunityArea_frame (offline 100) (loaded [area_one] 50)
           (loaded [area_one] 50) (a_park (Num.of_Z 3))
           (with_communityArea (a_park (Num.of_Z 3)) (Num.of_Z 1)) eq_refl).
Defined.

Lemma isValidCoordinates_spec_witness :
  within west west east /\ isValidCoordinates (south, west) = true.
Proof.
  assert (H : within west west east) by (vm_compute; tauto).
  split; [exact H|].
  apply (proj1 (proj2 (isValidCoordinates_spec south west)) H).
Defined.

Lemma isPointInGeometry_contains_iff_witness :
  isPointInGeometry (pos 1 1)
    (Some (MultiPolygon (Some [[small_square]; donut]))) = true.
Proof.
  apply (proj1 (proj2 (isPointInGeometry_contains_iff (pos 1 1)))
           [[small_square]; donut]).
  - constructor; [discriminate|]. constructor; [discriminate|].
    constructor.
  - apply Exists_cons_tl, Exists_cons_hd.
    exists square, [small_square]. split; [reflexivity|].
    split; [vm_compute; reflexivity|].
    constructor; [vm_compute; reflexivity | constructor].
Defined.

End Scenarios.

(** * Further properties of the two services *)

(** ** Rings, polygons and geometries *)

Section MoreGeometryFacts.

Variable point : Position.

Lemma crosses_same_vertex (v : Position) : crosses point v v = false.
Proof.
  unfold crosses. destruct point as [x y], v as [xv yv].
  now rewrite eqb_reflx.
Qed.

(** X1. A ring closed the GeoJSON way, by repeating its first vertex at
    the end, contains the same points as the ring without the repeated
    vertex. *)
Theorem pointInRing_closing_vertex (first : Position) (rest : Ring) :
  pointInRing point (first :: rest ++ [first])
  = pointInRing point (first :: rest).
Proof.
  rewrite !pointInRing_parity.
  change (first :: rest ++ [first]) with ((first :: rest) ++ [first]).
  rewrite last_snoc, edge_parity_app. simpl.
  rewrite crosses_same_vertex, xorb_false_r, xorb_false_l.
  rewrite last_cons. destruct (last rest) as [prev|]; simpl.
  - apply xorb_comm.
  - apply xorb_comm.
Qed.

Lemma edge_parity_same_side (side : bool) (l : Ring) :
  Forall (fun v => Num.gt (snd v) (snd point) = side) l ->
  forall prev,
    Num.gt (snd prev) (snd point) = side ->
    edge_parity point prev l = false.
Proof.
  induction 1 as [|v l Hv _ IH]; intros prev Hprev; simpl.
  - reflexivity.
  - rewrite (IH v Hv), xorb_false_r. unfold crosses.
    destruct point as [x y], v as [xv yv], prev as [xp yp]. simpl in *.
    now rewrite Hv, Hprev, eqb_reflx.
Qed.

(** X2. A ring whose vertices all lie on one side of the horizontal line
    through the point (all strictly above it, or none strictly above it)
    does not contain the point. *)
Theorem pointInRing_same_side (side : bool) (ring : Ring) :
  Forall (fun v => Num.gt (snd v) (snd point) = side) ring ->
  pointInRing point ring = false.
Proof.
  intros Hside. rewrite pointInRing_parity.
  destruct (last ring) as [prev|] eqn:Hlast; [|reflexivity].
  apply (edge_parity_same_side side); [exact Hside|].
  apply last_Some_elem_of in Hlast.
  rewrite Forall_forall in Hside. now apply Hside.
Qed.

Lemma forallb_outside_Permutation (holes holes' : list Ring) :
  Permutation holes holes' ->
  forallb (outside point) holes = forallb (outside point) holes'.
Proof.
  induction 1 as [|hole l l' _ IH|h1 h2 l|l1 l2 l3 _ IH1 _ IH2]; simpl.
  - reflexivity.
  - now rewrite IH.
  - destruct (outside point h1), (outside point h2); reflexivity.
  - now rewrite IH1.
Qed.

(** X3. The order of the hole rings of a polygon does not matter: a
    polygon and the same polygon with its holes permuted give the same
    answer. *)
Theorem isPointInPolygon_holes_Permutation (exterior : Ring)
  (holes holes' : list Ring) :
  Permutation holes holes' ->
  isPointInPolygon point (exterior :: holes)
  = isPointInPolygon point (exterior :: holes').
Proof.
  intros Hperm. rewrite !isPointInPolygon_eq.
  now rewrite (forallb_outside_Permutation holes holes' Hperm).
Qed.

(** X4. Union: when every polygon of the first part has at least one
    ring, a MultiPolygon made of two parts contains the point exactly when
    the MultiPolygon of one of the parts does. *)
Theorem isPointInGeometry_union (polygons more : list (list Ring)) :
  Forall (fun polygon => polygon <> []) polygons ->
  isPointInGeometry point (Some (MultiPolygon (Some (polygons ++ more))))
  = isPointInGeometry point (Some (MultiPolygon (Some polygons)))
    || isPointInGeometry point (Some (MultiPolygon (Some more))).
Proof.
  induction 1 as [|polygon polygons Hne _ IH]; simpl in *.
  - reflexivity.
  - rewrite isPointInPolygon_eq.
    destruct polygon as [|exterior holes]; [contradiction|].
    destruct (pointInRing point exterior && forallb (outside point) holes).
    + reflexivity.
    + exact IH.
Qed.

End MoreGeometryFacts.

Lemma pointInRing_same_side_witness :
  pointInRing (pos 5 20) square = false.
Proof.
  apply (pointInRing_same_side (pos 5 20) false square).
  repeat constructor.
Defined.

Lemma isPointInPolygon_holes_Permutation_witness :
  isPointInPolygon (pos 5 5) [square; small_square; segment]
  = isPointInPolygon (pos 5 5) [square; segment; small_square].
Proof.
  apply (isPointInPolygon_holes_Permutation (pos 5 5) square
           [small_square; segment] [segment; small_square]).
  apply perm_swap.
Defined.

Lemma isPointInGeometry_union_witness :
  isPointInGeometry (pos 5 5)
    (Some (MultiPolygon (Some ([[small_square]] ++ [[]; [square]]))))
  = isPointInGeometry (pos 5 5) (Some (MultiPolygon (Some [[small_square]])))
    || isPointInGeometry (pos 5 5)
         (Some (MultiPolygon (Some [[]; [square]]))).
Proof.
  apply (isPointInGeometry_union (pos 5 5) [[small_square]] [[]; [square]]).
  constructor; [discriminate | constructor].
Defined.

(** ** Refreshing and reading the store *)

Section MoreStoreFacts.

(** A filter that succeeds has met records only, and keeps the admissible
    ones in their order. *)
Lemma filter_elements_records (elements : list (option CommunityArea)) :
  forall kept,
    filter_elements elements = Ok kept ->
    exists records,
      elements = map Some records
      /\ kept = List.filter has_required_fields records.
Proof.
  induction elements as [|[first|] elements IH]; simpl; intros kept Hkept.
  - injection Hkept as <-. now exists [].
  - destruct (filter_elements elements) as [rest|]; [|discriminate].
    destruct (IH rest eq_refl) as (records & -> & ->).
    injection Hkept as <-. exists (first :: records). now split.
  - discriminate.
Qed.

Lemma filter_elements_of_records (records : list CommunityArea) :
  filter_elements (map Some records)
  = Ok (List.filter has_required_fields records).
Proof.
  induction records as [|first records IH]; simpl; [reflexivity|].
  now rewrite IH.
Qed.

Lemma loadCommunityAreas_success (w : World) (st st' : Service) :
  loadCommunityAreas w st = (Ok tt, st') ->
  exists statusText records,
    feed w = Responded true statusText (Parsed (JsonArray (map Some records)))
    /\ st' = {| communityAreasCache :=
                  List.filter has_required_fields records;
                lastCommunityLoadTime := now_after_load w |}.
Proof.
  rewrite loadCommunityAreas_eq.
  destruct (fst (fetch_and_filter w st)) as [areas|e] eqn:Hfetch;
    [|discriminate].
  intros [= <-].
  apply fetch_and_filter_kept in Hfetch as (text & elements & Hfeed & Hkept).
  destruct (filter_elements_records _ _ Hkept) as (records & -> & ->).
  now exists text, records.
Qed.

Lemma loadCommunityAreas_of_records (w : World) (st : Service)
  (statusText : string) (records : list CommunityArea) :
  feed w = Responded true statusText (Parsed (JsonArray (map Some records))) ->
  loadCommunityAreas w st
  = (Ok tt, {| communityAreasCache :=
                 List.filter has_required_fields records;
               lastCommunityLoadTime := now_after_load w |}).
Proof.
  intros Hfeed. rewrite loadCommunityAreas_eq.
  unfold fetch_and_filter, bind, fetch. rewrite Hfeed. simpl.
  unfold data_filter. now rewrite filter_elements_of_records.
Qed.

(** X5. A successful refresh replaces the cache: whatever the store held
    before, it then holds the records of the feed that have the three
    required fields, in the order of the feed and with repetitions kept,
    and the time read after loading. *)
Theorem loadCommunityAreas_replaces (w : World) (st st' : Service) :
  loadCommunityAreas w st = (Ok tt, st') ->
  exists statusText records,
    feed w = Responded true statusText (Parsed (JsonArray (map Some records)))
    /\ communityAreasCache st' = List.filter has_required_fields records
    /\ lastCommunityLoadTime st' = now_after_load w
    /\ forall previous, loadCommunityAreas w previous = (Ok tt, st').
Proof.
  intros Hload.
  destruct (loadCommunityAreas_success _ _ _ Hload)
    as (text & records & Hfeed & Hst').
  clear Hload. subst st'.
  exists text, records. repeat split; try assumption.
  intros previous. now apply (loadCommunityAreas_of_records _ _ text).
Qed.

(** X6. The cache lives 60 minutes, the last millisecond included: after
    a refresh that stored at least one record, a call made at most
    3,600,000 ms after the stored time answers from the cache, whatever
    the feed would deliver, and leaves the store as it is; a call made any
    later runs the refresh. *)
Theorem cache_lifetime (w0 w : World) (st0 st1 : Service)
  (lat lng : number) :
  loadCommunityAreas w0 st0 = (Ok tt, st1) ->
  communityAreasCache st1 <> [] ->
  (now_on_entry w - now_after_load w0 <= 3600000 ->
   getCommunityAreaForCoordinates lat lng w st1
   = (Ok (first_containing (lng, lat) (communityAreasCache st1)), st1))
  /\ (now_on_entry w - now_after_load w0 > 3600000 ->
      ensureCommunityAreasLoaded w st1 = loadCommunityAreas w st1).
Proof.
  intros Hload Hne.
  assert (Htime : lastCommunityLoadTime st1 = now_after_load w0).
  { destruct (loadCommunityAreas_success _ _ _ Hload)
      as (text & records & _ & Hst1).
    now rewrite Hst1. }
  split; intros Hnow.
  - rewrite getCommunityAreaForCoordinates_eq, ensure_when_not_due;
      [reflexivity|].
    apply not_refresh_due_iff. rewrite Htime. now split.
  - apply ensure_when_due, refresh_due_iff. left. now rewrite Htime.
Qed.

(** X7. A feed without any admissible record is not an error: the call
    that loads it returns null for every point, the cache is empty
    afterwards, and every later call is due for a refresh, however soon
    it comes. *)
Theorem empty_feed_refetched (w : World) (st : Service) (lat lng : number)
  (statusText : string) (records : list CommunityArea) :
  refresh_due w st ->
  feed w = Responded true statusText (Parsed (JsonArray (map Some records))) ->
  Forall (fun record => has_required_fields record = false) records ->
  exists st',
    getCommunityAreaForCoordinates lat lng w st = (Ok None, st')
    /\ communityAreasCache st' = []
    /\ forall later, refresh_due later st'.
Proof.
  intros Hdue Hfeed Hnone.
  assert (Hfilter : List.filter has_required_fields records = []).
  { clear Hfeed. induction Hnone as [|record records Hrecord _ IH]; simpl;
      [reflexivity|]. now rewrite Hrecord. }
  exists {| communityAreasCache := [];
            lastCommunityLoadTime := now_after_load w |}.
  rewrite getCommunityAreaForCoordinates_eq, ensure_when_due by assumption.
  rewrite (loadCommunityAreas_of_records _ _ _ _ Hfeed), Hfilter. simpl.
  repeat split. intros later. apply refresh_due_iff. now right.
Qed.

(** X8. Asking again gives the same answer: once a call has returned, a
    second call with the same coordinates that finds no refresh due
    returns the same result and leaves the store as the first left it. *)
Theorem classifier_repeatable (w w' : World) (st st' : Service)
  (lat lng : number) (result : option number) :
  getCommunityAreaForCoordinates lat lng w st = (Ok result, st') ->
  ~ refresh_due w' st' ->
  getCommunityAreaForCoordinates lat lng w' st' = (Ok result, st').
Proof.
  rewrite !getCommunityAreaForCoordinates_eq. intros Hfirst Hfresh.
  rewrite ensure_when_not_due by assumption.
  destruct (ensureCommunityAreasLoaded w st) as [[[]|e] st1];
    [|discriminate].
  now injection Hfirst as <- <-.
Qed.

Lemma first_containing_Some (point : Position)
  (areas : list CommunityArea) (n : number) :
  first_containing point areas = Some n ->
  Num.truthy n = true
  /\ exists before area after,
      areas = before ++ area :: after
      /\ Forall (fun earlier => contains_point point earlier = false) before
      /\ contains_point point area = true
      /\ parsed_number area = n.
Proof.
  unfold contains_point, parsed_number.
  induction areas as [|first areas IH]; simpl; [discriminate|].
  destruct (isPointInGeometry point (the_geom first)) eqn:Hfirst.
  - unfold or_null.
    destruct (Num.truthy (ParseInt.parseInt _)) eqn:Htruthy;
      [|discriminate].
    intros [= <-]. split; [exact Htruthy|].
    exists [], first, areas. repeat split; [constructor | exact Hfirst].
  - intros Hrest.
    destruct (IH Hrest) as (Htruthy & before & area & after & -> & Hb & Ha).
    split; [exact Htruthy|].
    exists (first :: before), area, after.
    repeat split; try apply Ha. now constructor.
Qed.

Lemma classifier_Some_inv (w : World) (st st' : Service)
  (lat lng n : number) :
  getCommunityAreaForCoordinates lat lng w st = (Ok (Some n), st') ->
  first_containing (lng, lat) (communityAreasCache st') = Some n.
Proof.
  rewrite getCommunityAreaForCoordinates_eq.
  destruct (ensureCommunityAreasLoaded w st) as [[[]|e] st1];
    [|discriminate].
  now intros [= Hfound <-].
Qed.

(** X9. The classifier never returns zero or NaN: a number it returns is
    truthy, and it is the parsed identifier of a cached record whose
    geometry contains the point while no earlier record's does. *)
Theorem classifier_sound (w : World) (st st' : Service) (lat lng n : number) :
  getCommunityAreaForCoordinates lat lng w st = (Ok (Some n), st') ->
  Num.truthy n = true
  /\ exists before area after,
      communityAreasCache st' = before ++ area :: after
      /\ Forall (fun earlier => contains_point (lng, lat) earlier = false)
           before
      /\ contains_point (lng, lat) area = true
      /\ parsed_number area = n.
Proof.
  intros Hclass. now apply first_containing_Some, (classifier_Some_inv w st).
Qed.

End MoreStoreFacts.

Lemma loadCommunityAreas_replaces_witness :
  loadCommunityAreas (a_feed 100 [area_without_number; area_zero])
    new_GeospatialService
  = (Ok tt, loaded [area_zero] 105).
Proof.
  destruct (loadCommunityAreas_replaces
              (a_feed 100 [area_without_number; area_zero])
              (loaded [area_one] 50)
              (loaded [area_zero] 105) eq_refl)
    as (text & records & _ & _ & _ & Hany).
  exact (Hany new_GeospatialService).
Defined.

Lemma cache_lifetime_witness :
  getCommunityAreaForCoordinates five five (offline 3600105)
    (loaded [area_one] 105)
  = (Ok (Some (Num.of_Z 1)), loaded [area_one] 105).
Proof.
  apply (proj1 (cache_lifetime (a_feed 100 [area_one]) (offline 3600105)
                  new_GeospatialService (loaded [area_one] 105) five five
                  eq_refl ltac:(discriminate))).
  vm_compute. discriminate.
Defined.

Lemma empty_feed_refetched_witness :
  exists st',
    getCommunityAreaForCoordinates five five
      (a_feed 100 [area_without_number]) new_GeospatialService
    = (Ok None, st')
    /\ communityAreasCache st' = []
    /\ forall later, refresh_due later st'.
Proof.
  apply (empty_feed_refetched (a_feed 100 [area_without_number])
           new_GeospatialService five five "OK" [area_without_number]).
  - reflexivity.
  - reflexivity.
  - now constructor.
Defined.

Lemma classifier_repeatable_witness :
  getCommunityAreaForCoordinates five five (offline 200)
    (loaded [area_one] 105)
  = (Ok (Some (Num.of_Z 1)), loaded [area_one] 105).
Proof.
  apply (classifier_repeatable (a_feed 100 [area_one]) (offline 200)
           new_GeospatialService (loaded [area_one] 105) five five
           (Some (Num.of_Z 1)) eq_refl).
  intros [=].
Defined.

Lemma classifier_sound_witness :
  Num.truthy (Num.of_Z 1) = true
  /\ exists before area after,
      communityAreasCache (loaded [area_one] 50) = before ++ area :: after
      /\ Forall (fun earlier => contains_point (five, five) earlier = false)
           before
      /\ contains_point (five, five) area = true
      /\ parsed_number area = Num.of_Z 1.
Proof.
  apply (classifier_sound (offline 100) (loaded [area_one] 50)
           (loaded [area_one] 50) five five (Num.of_Z 1)).
  reflexivity.
Defined.

(** ** Looking a record up by its number *)

Section InfoFacts.

Lemma strict_eq_refl (n : number) :
  Num.truthy n = true -> Num.strict_eq n n = true.
Proof.
  unfold Num.strict_eq, SFeqb.
  destruct n as [[]|[]| |[] m e]; simpl; try discriminate; try reflexivity;
    intros _; now rewrite Z.compare_refl, Pos.compare_cont_refl.
Qed.

Lemma strict_eq_NaN_r (a n : number) :
  Num.isNaN n = true -> Num.strict_eq a n = false.
Proof.
  intros H. apply isNaN_spec in H. subst n.
  unfold Num.strict_eq, SFeqb. now destruct a.
Qed.

Lemma getCommunityAreaInfo_eq (w : World) (st : Service) (n : number) :
  getCommunityAreaInfo n w st
  = match ensureCommunityAreasLoaded w st with
    | (Ok _, st') =>
        (Ok (List.find (fun area => Num.strict_eq (parsed_number area) n)
               (communityAreasCache st')), st')
    | (Throw e, st') => (Throw e, st')
    end.
Proof.
  unfold getCommunityAreaInfo, bind at 1.
  now destruct (ensureCommunityAreasLoaded w st) as [[[]|e] st'].
Qed.

(** [find] answers with the first element on which the test holds. *)
Lemma find_first {A} (test : A -> bool) (l : list A) (x : A) :
  List.find test l = Some x
  <-> exists before after,
      l = before ++ x :: after
      /\ Forall (fun y => test y = false) before
      /\ test x = true.
Proof.
  induction l as [|y l IH]; simpl.
  - split; [discriminate|]. intros (before & after & H & _).
    now destruct before.
  - destruct (test y) eqn:Hy.
    + split.
      * intros [= <-]. exists [], l. now repeat split.
      * intros (before & after & Heq & Hbefore & Hx).
        destruct before as [|y' before]; simpl in Heq.
        -- now injection Heq as ->.
        -- injection Heq as -> ->. inversion Hbefore; subst. congruence.
    + rewrite IH. split.
      * intros (before & after & -> & Hbefore & Hx).
        exists (y :: before), after. repeat split; [|exact Hx].
        now constructor.
      * intros (before & after & Heq & Hbefore & Hx).
        destruct before as [|y' before]; simpl in Heq.
        -- injection Heq as -> ->. congruence.
        -- injection Heq as -> ->. inversion Hbefore; subst.
           now exists before, after.
Qed.

Lemma find_none_Forall {A} (test : A -> bool) (l : list A) :
  List.find test l = None <-> Forall (fun y => test y = false) l.
Proof.
  induction l as [|y l IH]; simpl.
  - split; [constructor | reflexivity].
  - destruct (test y) eqn:Hy.
    + split; [discriminate|]. intros H. inversion H; subst. congruence.
    + rewrite IH. split; [now constructor | now inversion 1].
Qed.

(** X10. After its freshness step, [getCommunityAreaInfo] returns the
    first cached record whose parsed identifier equals the number asked
    for (so of two records with one number the later is never returned),
    and null when there is none; asked for NaN it returns null. *)
Theorem getCommunityAreaInfo_first (w : World) (st st' : Service)
  (areaNumber : number) :
  ensureCommunityAreasLoaded w st = (Ok tt, st') ->
  (forall area,
      getCommunityAreaInfo areaNumber w st = (Ok (Some area), st')
      <-> exists before after,
          communityAreasCache st' = before ++ area :: after
          /\ Forall (fun earlier =>
                       Num.strict_eq (parsed_number earlier) areaNumber
                       = false) before
          /\ Num.strict_eq (parsed_number area) areaNumber = true)
  /\ (getCommunityAreaInfo areaNumber w st = (Ok None, st')
      <-> Forall (fun area =>
                    Num.strict_eq (parsed_number area) areaNumber = false)
            (communityAreasCache st'))
  /\ (Num.isNaN areaNumber = true ->
      getCommunityAreaInfo areaNumber w st = (Ok None, st')).
Proof.
  intros Hensure. rewrite getCommunityAreaInfo_eq, Hensure.
  split; [|split].
  - intros area. split.
    + intros [= Hfind]. now apply find_first in Hfind.
    + intros Hfirst. do 2 f_equal.
      now apply (find_first
                   (fun a => Num.strict_eq (parsed_number a) areaNumber)).
  - split.
    + intros [= Hfind]. now apply find_none_Forall in Hfind.
    + intros Hnone. do 2 f_equal.
      now apply (find_none_Forall
                   (fun a => Num.strict_eq (parsed_number a) areaNumber)).
  - intros HNaN. do 2 f_equal. apply find_none_Forall, Forall_forall.
    intros area _. now apply strict_eq_NaN_r.
Qed.

(** X11. From a point to its record: a number the classifier has
    returned is found again by [getCommunityAreaInfo], as long as no
    refresh is due, and the record found carries that number. *)
Theorem classify_then_info (w w' : World) (st st' : Service)
  (lat lng n : number) :
  getCommunityAreaForCoordinates lat lng w st = (Ok (Some n), st') ->
  ~ refresh_due w' st' ->
  exists area,
    getCommunityAreaInfo n w' st' = (Ok (Some area), st')
    /\ In area (communityAreasCache st')
    /\ Num.strict_eq (parsed_number area) n = true.
Proof.
  intros Hclass Hfresh.
  apply classifier_Some_inv, first_containing_Some in Hclass.
  destruct Hclass
    as (Htruthy & before & found & after & Hcache & _ & _ & Hn).
  rewrite getCommunityAreaInfo_eq, ensure_when_not_due by assumption.
  destruct (List.find _ (communityAreasCache st')) as [area|] eqn:Hfind.
  - exists area. split; [reflexivity|].
    apply find_some in Hfind as [Hin Heq]. now split.
  - exfalso. apply find_none_Forall in Hfind.
    rewrite Hcache, Forall_app, Forall_cons in Hfind.
    destruct Hfind as (_ & Hfound & _).
    rewrite Hn, strict_eq_refl in Hfound by assumption. discriminate.
Qed.

Lemma reachable_complete (st : Service) :
  reachable st -> Forall complete (communityAreasCache st).
Proof.
  induction 1 as [|st st' _ IH Hstep]; [constructor|].
  now apply (step_complete st st').
Qed.

(** X12. In every state the service can reach, a record returned by
    [getCommunityAreaInfo] has a geometry, an identifier and a display
    name, and the state the call leaves is one the freshness step
    alone would leave. *)
Theorem getCommunityAreaInfo_complete (w : World) (st st' : Service)
  (areaNumber : number) (area : CommunityArea) :
  reachable st ->
  getCommunityAreaInfo areaNumber w st = (Ok (Some area), st') ->
  complete area /\ st' = snd (ensureCommunityAreasLoaded w st).
Proof.
  intros Hreach. rewrite getCommunityAreaInfo_eq.
  pose proof (ensureCommunityAreasLoaded_complete w st
                (reachable_complete st Hreach)) as Hinv.
  destruct (ensureCommunityAreasLoaded w st) as [[[]|e] st1];
    [|discriminate].
  intros [= Hfind <-]. split; [|reflexivity].
  apply find_some in Hfind as [Hin _].
  simpl in Hinv. rewrite Forall_forall in Hinv.
  now apply Hinv, list_elem_of_In.
Qed.

End InfoFacts.

Lemma getCommunityAreaInfo_first_witness :
  getCommunityAreaInfo Num.NaN (offline 100) (loaded [area_one] 50)
  = (Ok None, loaded [area_one] 50).
Proof.
  apply (proj2 (proj2 (getCommunityAreaInfo_first (offline 100)
                         (loaded [area_one] 50) (loaded [area_one] 50)
                         Num.NaN eq_refl))).
  reflexivity.
Defined.

Lemma classify_then_info_witness :
  exists area,
    getCommunityAreaInfo (Num.of_Z 1) (offline 200) (loaded [area_one] 50)
    = (Ok (Some area), loaded [area_one] 50)
    /\ In area (communityAreasCache (loaded [area_one] 50))
    /\ Num.strict_eq (parsed_number area) (Num.of_Z 1) = true.
Proof.
  apply (classify_then_info (offline 100) (offline 200)
           (loaded [area_one] 50) (loaded [area_one] 50) five five
           (Num.of_Z 1) eq_refl).
  intros [=].
Defined.

Lemma getCommunityAreaInfo_complete_witness :
  complete area_one
  /\ loaded [area_one] 105
     = snd (ensureCommunityAreasLoaded (a_feed 100 [area_one])
              new_GeospatialService).
Proof.
  apply (getCommunityAreaInfo_complete (a_feed 100 [area_one])
           new_GeospatialService (loaded [area_one] 105) (Num.of_Z 1)
           area_one reachable_new).
  reflexivity.
Defined.

(** ** Validating and correcting parks *)

Section ParkFacts.

Lemma validateParkLocation_eq (w : World) (st : Service) (park : Park) :
  validateParkLocation park w st
  = match getCommunityAreaForCoordinates (fst (coordinates park))
            (snd (coordinates park)) w st with
    | (Ok actual, st') =>
        (Ok (negb (strict_ne_or_null actual (communityArea park))), st')
    | (Throw e, st') => (Throw e, st')
    end.
Proof.
  unfold validateParkLocation. destruct (coordinates park) as [lat lng].
  unfold bind at 1. simpl.
  destruct (getCommunityAreaForCoordinates lat lng w st)
    as [[actual|e] st']; [|reflexivity].
  now destruct (strict_ne_or_null actual (communityArea park)).
Qed.

Lemma correctParkCommunityArea_eq (w : World) (st : Service) (park : Park) :
  correctParkCommunityArea park w st
  = match getCommunityAreaForCoordinates (fst (coordinates park))
            (snd (coordinates park)) w st with
    | (Ok (Some actual), st') =>
        (Ok (if Num.truthy actual
                && negb (Num.strict_eq actual (communityArea park))
             then with_communityArea park actual
             else park), st')
    | (Ok None, st') => (Ok park, st')
    | (Throw e, st') => (Throw e, st')
    end.
Proof.
  unfold correctParkCommunityArea. destruct (coordinates park) as [lat lng].
  unfold bind at 1. simpl.
  destruct (getCommunityAreaForCoordinates lat lng w st)
    as [[[actual|]|e] st']; try reflexivity.
  now destruct (_ && _).
Qed.

(** X13. A park that validates is left as it is by the correction made
    in the same circumstances. *)
Theorem valid_park_not_corrected (w : World) (st st' : Service)
  (park : Park) :
  validateParkLocation park w st = (Ok true, st') ->
  correctParkCommunityArea park w st = (Ok park, st').
Proof.
  rewrite validateParkLocation_eq, correctParkCommunityArea_eq.
  destruct (getCommunityAreaForCoordinates _ _ w st)
    as [[[actual|]|e] st1]; simpl; try discriminate.
  intros [= Heq <-]. apply negb_true_iff, negb_false_iff in Heq.
  now rewrite Heq, andb_false_r.
Qed.



(** X15. A correction never writes zero or NaN: the park returned is the
    given one, or it carries a truthy number different from the stored
    one, which is the classifier's answer for the park's coordinates, and
    is otherwise the same. *)
Theorem correction_is_classified (w : World) (st st' : Service)
  (park park' : Park) :
  correctParkCommunityArea park w st = (Ok park', st') ->
  park' = park
  \/ (Num.truthy (communityArea park') = true
      /\ Num.strict_eq (communityArea park') (communityArea park) = false
      /\ getCommunityAreaForCoordinates (fst (coordinates park))
           (snd (coordinates park)) w st
         = (Ok (Some (communityArea park')), st')
      /\ same_but_area park park').
Proof.
  rewrite correctParkCommunityArea_eq.
  destruct (getCommunityAreaForCoordinates _ _ w st)
    as [[[actual|]|e] st1]; try discriminate.
  - destruct (Num.truthy actual) eqn:Htruthy; simpl;
      [|intros [= <- <-]; now left].
    destruct (Num.strict_eq actual (communityArea park)) eqn:Heq; simpl;
      intros [= <- <-]; [now left|].
    right. simpl. repeat split; assumption.
  - intros [= <- <-]. now left.
Qed.

End ParkFacts.

Lemma valid_park_not_corrected_witness :
  correctParkCommunityArea (a_park (Num.of_Z 1)) (offline 100)
    (loaded [area_one] 50)
  = (Ok (a_park (Num.of_Z 1)), loaded [area_one] 50).
Proof.
  apply (valid_park_not_corrected (offline 100) (loaded [area_one] 50)
           (loaded [area_one] 50) (a_park (Num.of_Z 1))).
  reflexivity.
Defined.


Lemma correction_is_classified_witness :
  a_park (Num.of_Z 1) = a_park (Num.of_Z 3)
  \/ (Num.truthy (communityArea (a_park (Num.of_Z 1))) = true
      /\ Num.strict_eq (communityArea (a_park (Num.of_Z 1)))
           (communityArea (a_park (Num.of_Z 3))) = false
      /\ getCommunityAreaForCoordinates
           (fst (coordinates (a_park (Num.of_Z 3))))
           (snd (coordinates (a_park (Num.of_Z 3)))) (offline 100)
           (loaded [area_one] 50)
         = (Ok (Some (communityArea (a_park (Num.of_Z 1)))),
            loaded [area_one] 50)
      /\ same_but_area (a_park (Num.of_Z 3)) (a_park (Num.of_Z 1))).
Proof.
  apply (correction_is_classified (offline 100) (loaded [area_one] 50)
           (loaded [area_one] 50) (a_park (Num.of_Z 3))
           (a_park (Num.of_Z 1))).
  reflexivity.
Defined.

(** ** Classifying an address *)

Section AddressFacts.

Variable geocodeAddress : string -> M (option Geocoded.t).

Lemma getCommunityAreaForAddress_eq (address : string) (w : World)
  (st : Service) :
  getCommunityAreaForAddress geocodeAddress address w st
  = match geocodeAddress address w st with
    | (Ok (Some found), st1) =>
        match getCommunityAreaForCoordinates (Geocoded.latitude found)
                (Geocoded.longitude found) w st1 with
        | (Ok area, st2) =>
            (Ok (Some
                   {| GeocodeResult.latitude := Geocoded.latitude found;
                      GeocodeResult.longitude := Geocoded.longitude found;
                      GeocodeResult.communityArea := area;
                      GeocodeResult.address :=
                        address_or (Geocoded.address found) address |}),
             st2)
        | (Throw _, st2) => (Ok None, st2)
        end
    | (Ok None, st1) | (Throw _, st1) => (Ok None, st1)
    end.
Proof.
  unfold getCommunityAreaForAddress, try_catch, bind.
  destruct (geocodeAddress address w st) as [[[found|]|e0] st0];
    try reflexivity.
  now destruct (getCommunityAreaForCoordinates _ _ w st0) as [[area|e1] st3].
Qed.

(** X16. [getCommunityAreaForAddress] never throws, whatever the geocoder
    does: an address the geocoder does not resolve, a geocoder error and
    an error of the classifier (a failed refresh) all come back as null;
    when both succeed the result carries the geocoder's coordinates, the
    classifier's answer, and the geocoder's address or, for want of one,
    the address given. *)
Theorem getCommunityAreaForAddress_never_throws (address : string)
  (w : World) (st : Service) :
  (exists result,
      fst (getCommunityAreaForAddress geocodeAddress address w st)
      = Ok result)
  /\ (forall st1,
      geocodeAddress address w st = (Ok None, st1) ->
      getCommunityAreaForAddress geocodeAddress address w st
      = (Ok None, st1))
  /\ (forall e st1,
      geocodeAddress address w st = (Throw e, st1) ->
      getCommunityAreaForAddress geocodeAddress address w st
      = (Ok None, st1))
  /\ (forall found st1 e st2,
      geocodeAddress address w st = (Ok (Some found), st1) ->
      getCommunityAreaForCoordinates (Geocoded.latitude found)
        (Geocoded.longitude found) w st1 = (Throw e, st2) ->
      getCommunityAreaForAddress geocodeAddress address w st
      = (Ok None, st2))
  /\ (forall found st1 area st2,
      geocodeAddress address w st = (Ok (Some found), st1) ->
      getCommunityAreaForCoordinates (Geocoded.latitude found)
        (Geocoded.longitude found) w st1 = (Ok area, st2) ->
      getCommunityAreaForAddress geocodeAddress address w st
      = (Ok (Some
               {| GeocodeResult.latitude := Geocoded.latitude found;
                  GeocodeResult.longitude := Geocoded.longitude found;
                  GeocodeResult.communityArea := area;
                  GeocodeResult.address :=
                    address_or (Geocoded.address found) address |}),
         st2)).
Proof.
  rewrite getCommunityAreaForAddress_eq. split; [|repeat split].
  - destruct (geocodeAddress address w st) as [[[found|]|e0] st0];
      simpl; eauto.
    destruct (getCommunityAreaForCoordinates _ _ w st0)
      as [[area|e1] st3]; simpl; eauto.
  - now intros st1 ->.
  - now intros e st1 ->.
  - now intros found st1 e st2 -> ->.
  - now intros found st1 area st2 -> ->.
Qed.

End AddressFacts.

Lemma getCommunityAreaForAddress_never_throws_witness :
  getCommunityAreaForAddress
    (fun _ => ret (Some {| Geocoded.latitude := five;
                           Geocoded.longitude := five;
                           Geocoded.address := None |}))
    "5, 5" (offline 3600051) (loaded [area_one] 50)
  = (Ok None, loaded [area_one] 50).
Proof.
  apply (proj1 (proj2 (proj2 (proj2
           (getCommunityAreaForAddress_never_throws
              (fun _ => ret (Some {| Geocoded.latitude := five;
                                     Geocoded.longitude := five;
                                     Geocoded.address := None |}))
              "5, 5" (offline 3600051) (loaded [area_one] 50)))))
           {| Geocoded.latitude := five; Geocoded.longitude := five;
              Geocoded.address := None |}
           (loaded [area_one] 50) NetworkError (loaded [area_one] 50)).
  - reflexivity.
  - reflexivity.
Defined.

(** ** Helpers of the park service *)

Section ParkHelperFacts.

Lemma add_NaN_l (a : number) : Num.add Num.NaN a = Num.NaN.
Proof. reflexivity. Qed.

Lemma add_NaN_r (a : number) : Num.add a Num.NaN = Num.NaN.
Proof. now destruct a. Qed.

Lemma fold_sum_NaN (component : Position -> number) (coords : Ring) :
  fold_left (fun sum point => Num.add sum (component point)) coords Num.NaN
  = Num.NaN.
Proof. induction coords as [|v coords IH]; simpl; [reflexivity | exact IH]. Qed.

Lemma reduce_sum_NaN (component : Position -> number) (coords : Ring)
  (vertex : Position) :
  In vertex coords -> Num.isNaN (component vertex) = true ->
  reduce_sum component coords = Num.NaN.
Proof.
  unfold reduce_sum. intros Hin HNaN. apply isNaN_spec in HNaN.
  generalize (Num.of_Z 0).
  induction coords as [|v coords IH]; simpl; intros start; [contradiction|].
  destruct Hin as [->|Hin].
  - rewrite HNaN, add_NaN_r. apply fold_sum_NaN.
  - now apply IH.
Qed.

(** X17. A NaN among the coordinates of the ring that
    [extractCoordinates] averages (the first ring of the first polygon)
    makes the centroid one that [isValidCoordinates] rejects. *)
Theorem NaN_vertex_never_valid (geometry : option Geometry) (ring : Ring)
  (vertex : Position) :
  first_ring geometry = Some ring ->
  In vertex ring ->
  Num.isNaN (fst vertex) || Num.isNaN (snd vertex) = true ->
  exists centroid,
    extractCoordinates geometry = Some centroid
    /\ isValidCoordinates centroid = false.
Proof.
  intros Hring Hin HNaN. unfold extractCoordinates. rewrite Hring.
  destruct ring as [|v ring]; [contradiction|].
  eexists. split; [reflexivity|].
  unfold isValidCoordinates.
  apply orb_true_iff in HNaN as [HNaN|HNaN];
    rewrite (reduce_sum_NaN _ _ vertex Hin HNaN); simpl.
  - now rewrite andb_false_r.
  - reflexivity.
Qed.

(** X18. [determineParkSize] is monotone: of two acreages, the larger
    never gets the smaller class; an acreage that is NaN gets the class
    large. *)
Theorem determineParkSize_monotone (acres acres' : number) :
  (Num.le acres acres' = true ->
   (size_rank (determineParkSize acres)
    <= size_rank (determineParkSize acres'))%nat)
  /\ (Num.isNaN acres = true -> determineParkSize acres = large).
Proof.
  unfold determineParkSize. split.
  - intros Hle.
    destruct (Num.le acres' (Num.of_Z 2)) eqn:H2.
    + now rewrite (le_trans _ _ _ Hle H2).
    + destruct (Num.le acres' (Num.of_Z 10)) eqn:H10.
      * rewrite (le_trans _ _ _ Hle H10).
        destruct (Num.le acres (Num.of_Z 2)); simpl; lia.
      * destruct (Num.le acres (Num.of_Z 2)),
          (Num.le acres (Num.of_Z 10)); simpl; lia.
  - intros HNaN. apply isNaN_spec in HNaN. now subst.
Qed.

Lemma is_Yes_spec (column : option string) :
  is_Yes column = true <-> column = Some "Yes"%string.
Proof.
  destruct column as [s|]; simpl; [|split; discriminate].
  rewrite String.eqb_eq. split; congruence.
Qed.

Lemma push_if_column (column : option string) (amenity : string)
  (columns : list (option string * string)) :
  push_if (is_Yes column) amenity
    (map snd (List.filter (fun c => is_Yes (fst c)) columns))
  = map snd (List.filter (fun c => is_Yes (fst c))
               (columns ++ [(column, amenity)])).
Proof.
  rewrite List.filter_app, map_app. simpl. unfold push_if.
  destruct (is_Yes column); simpl; [reflexivity | now rewrite app_nil_r].
Qed.

Lemma extractAmenities_columns (apiPark : ApiPark.t) :
  extractAmenities apiPark
  = map snd (List.filter (fun c => is_Yes (fst c)) (amenity_columns apiPark)).
Proof.
  unfold extractAmenities. cbv zeta.
  change (@nil string)
    with (map snd (List.filter (fun c : option string * string =>
                                  is_Yes (fst c)) [])) at 1.
  now rewrite !push_if_column.
Qed.

Lemma NoDup_map_filter {A B} (f : A -> B) (test : A -> bool) (l : list A) :
  NoDup (map f l) -> NoDup (map f (List.filter test l)).
Proof.
  induction l as [|x l IH]; simpl; [trivial|].
  intros Hnodup. apply NoDup_cons in Hnodup as [Hx Hl].
  destruct (test x); simpl; [|now apply IH].
  apply NoDup_cons. split; [|now apply IH].
  intros Hin. apply Hx.
  apply list_elem_of_In in Hin. apply list_elem_of_In.
  apply in_map_iff in Hin as (y & Hy & Hyin).
  apply in_map_iff. exists y. split; [exact Hy|].
  now apply List.filter_In in Hyin as [Hyin _].
Qed.

(** X19. The amenities of a park are the names of the columns whose
    value is exactly "Yes", in the fixed order of the twelve columns and
    without repetition: a name is listed if and only if its column holds
    "Yes". *)
Theorem extractAmenities_spec (apiPark : ApiPark.t) :
  extractAmenities apiPark
  = map snd (List.filter (fun c => is_Yes (fst c)) (amenity_columns apiPark))
  /\ NoDup (extractAmenities apiPark)
  /\ (forall amenity,
      In amenity (extractAmenities apiPark)
      <-> In (Some "Yes"%string, amenity) (amenity_columns apiPark)).
Proof.
  split; [apply extractAmenities_columns|].
  rewrite extractAmenities_columns. split.
  - apply NoDup_map_filter. unfold amenity_columns. simpl.
    repeat (apply NoDup_cons_2;
            [intros Hin; apply list_elem_of_In in Hin; simpl in Hin;
             intuition discriminate|]).
    apply NoDup_nil_2.
  - intros amenity. rewrite in_map_iff. split.
    + intros ([column name] & Hname & Hin). simpl in Hname. subst name.
      apply List.filter_In in Hin as [Hin HYes]. simpl in HYes.
      apply is_Yes_spec in HYes. now subst column.
    + intros Hin. exists (Some "Yes"%string, amenity).
      split; [reflexivity|]. apply List.filter_In. now split.
Qed.

Lemma correctParkCommunityArea_same_but_area (w : World) (st st' : Service)
  (park park' : Park) :
  correctParkCommunityArea park w st = (Ok park', st') ->
  same_but_area park park'.
Proof.
  rewrite correctParkCommunityArea_eq.
  destruct (getCommunityAreaForCoordinates _ _ w st)
    as [[[actual|]|e] st1]; try discriminate.
  - destruct (_ && _); intros [= <- <-]; now repeat split.
  - intros [= <- <-]. now repeat split.
Qed.

(** X20. The correction loop of [validateAndCorrectParkLocations] neither
    drops, adds nor reorders parks: when it completes, the parks it has
    appended are as many as the parks it was given, in the same order,
    each differing from its original in the community area at most. *)
Theorem correct_parks_loop_frame (world_of : nat -> World)
  (allParks : list Park) :
  forall (k : nat) (correctedParks result : list Park) (st st' : Service),
    correct_parks_loop world_of k allParks correctedParks st
    = (Ok result, st') ->
    exists appended,
      result = correctedParks ++ appended
      /\ Forall2 same_but_area allParks appended.
Proof.
  induction allParks as [|park rest IH]; simpl;
    intros k correctedParks result st st' Hloop.
  - injection Hloop as <- <-. exists []. rewrite app_nil_r. now split.
  - destruct (correctParkCommunityArea park (world_of k) st)
      as [[correctedPark|e] st1] eqn:Hpark; [|discriminate].
    apply IH in Hloop as (appended & -> & Hrest).
    exists (correctedPark :: appended). rewrite <- app_assoc. split.
    + reflexivity.
    + constructor; [|exact Hrest].
      now apply (correctParkCommunityArea_same_but_area _ _ _ _ _ Hpark).
Qed.

End ParkHelperFacts.

Lemma NaN_vertex_never_valid_witness :
  exists centroid,
    extractCoordinates (Some (Polygon (Some [[pos 1 1; (Num.NaN, five)]])))
    = Some centroid
    /\ isValidCoordinates centroid = false.
Proof.
  apply (NaN_vertex_never_valid
           (Some (Polygon (Some [[pos 1 1; (Num.NaN, five)]])))
           [pos 1 1; (Num.NaN, five)] (Num.NaN, five)).
  - reflexivity.
  - right. now left.
  - reflexivity.
Defined.

Lemma determineParkSize_monotone_witness :
  (size_rank (determineParkSize (Num.of_Z 2))
   <= size_rank (determineParkSize (Num.of_Z 10)))%nat.
Proof.
  apply (proj1 (determineParkSize_monotone (Num.of_Z 2) (Num.of_Z 10))).
  reflexivity.
Defined.

Lemma correct_parks_loop_frame_witness :
  exists appended,
    [a_park (Num.of_Z 1); a_park (Num.of_Z 1)] = [] ++ appended
    /\ Forall2 same_but_area [a_park (Num.of_Z 3); a_park (Num.of_Z 1)]
         appended.
Proof.
  apply (correct_parks_loop_frame (fun _ => offline 100)
           [a_park (Num.of_Z 3); a_park (Num.of_Z 1)] 0%nat []
           [a_park (Num.of_Z 1); a_park (Num.of_Z 1)]
           (loaded [area_one] 50) (loaded [area_one] 50)).
  reflexivity.
Defined.

(** ** More on the validators and the refresh *)

Section MoreValidatorFacts.

(** X21. The regional box decides alone: [isValidCoordinates] accepts a
    pair exactly when [isValidChicagoCoordinates] does, the tests for NaN
    and for the envelope [-90, 90] x [-180, 180] being implied by the
    box. *)
Theorem isValidCoordinates_is_box (lat lng : number) :
  isValidCoordinates (lat, lng) = isValidChicagoCoordinates lat lng.
Proof.
  apply eq_true_iff_eq.
  rewrite isValidCoordinates_within, isValidChicagoCoordinates_within.
  split.
  - tauto.
  - intros [Hlat Hlng]. pose proof (box_in_envelope lat lng Hlat Hlng).
    tauto.
Qed.

(** X22. A refresh is seen by the call that triggers it: when a refresh
    is due and the feed delivers records, the classifier searches the
    admissible records of the feed, not the records cached before, and
    stores them with the time read after loading. *)
Theorem classifier_uses_refreshed (w : World) (st : Service)
  (lat lng : number) (statusText : string)
  (records : list CommunityArea) :
  refresh_due w st ->
  feed w = Responded true statusText (Parsed (JsonArray (map Some records))) ->
  getCommunityAreaForCoordinates lat lng w st
  = (Ok (first_containing (lng, lat)
           (List.filter has_required_fields records)),
     {| communityAreasCache := List.filter has_required_fields records;
        lastCommunityLoadTime := now_after_load w |}).
Proof.
  intros Hdue Hfeed.
  rewrite getCommunityAreaForCoordinates_eq, ensure_when_due by assumption.
  now rewrite (loadCommunityAreas_of_records _ _ _ _ Hfeed).
Qed.

Lemma filter_elements_null (elements : list (option CommunityArea)) :
  In None elements -> filter_elements elements = Throw TypeError.
Proof.
  induction elements as [|[first|] elements IH]; simpl; intros Hin.
  - contradiction.
  - destruct Hin as [Hin|Hin]; [discriminate|]. now rewrite IH.
  - reflexivity.
Qed.

(** X23. One null entry spoils the feed: while a record lacking a field
    is dropped silently, a feed whose array has a null element makes the
    whole refresh fail with a TypeError, and the store stays as it was. *)
Theorem null_element_fails_refresh (w : World) (st : Service)
  (statusText : string) (elements : list (option CommunityArea)) :
  feed w = Responded true statusText (Parsed (JsonArray elements)) ->
  In None elements ->
  loadCommunityAreas w st = (Throw TypeError, st).
Proof.
  intros Hfeed Hnull. rewrite loadCommunityAreas_eq.
  unfold fetch_and_filter, bind, fetch. rewrite Hfeed. simpl.
  unfold data_filter. now rewrite (filter_elements_null _ Hnull).
Qed.

End MoreValidatorFacts.

Example extractAmenities_example :
  extractAmenities some_columns
  = ["Basketball"; "Tennis"; "Wheelchair Accessible"]%string.
Proof. reflexivity. Qed.

Example extractCoordinates_example :
  extractCoordinates (Some (MultiPolygon (Some [[square]; []])))
  = Some (five, five)
  /\ extractCoordinates (Some (MultiPolygon (Some [[]; [square]]))) = None
  /\ extractCoordinates (Some (Polygon (Some []))) = None.
Proof. vm_compute. tauto. Qed.

Lemma classifier_uses_refreshed_witness :
  getCommunityAreaForCoordinates five five (a_feed 3600051 [area_zero])
    (loaded [area_one] 50)
  = (Ok None, loaded [area_zero] 3600056).
Proof.
  apply (classifier_uses_refreshed (a_feed 3600051 [area_zero])
           (loaded [area_one] 50) five five "OK" [area_zero]).
  - reflexivity.
  - reflexivity.
Defined.

Lemma null_element_fails_refresh_witness :
  loadCommunityAreas (online 100 [Some area_one; None])
    (loaded [area_zero] 50)
  = (Throw TypeError, loaded [area_zero] 50).
Proof.
  apply (null_element_fails_refresh (online 100 [Some area_one; None])
           (loaded [area_zero] 50) "OK" [Some area_one; None]).
  - reflexivity.
  - right. now left.
Defined.
